(** * A shallow embedding of [app.py]: the interactive movie recommender

    The program keeps one object, [MovieRecommenderML], whose attributes are
    the fixed catalog [movies_data], the append-only store [ratings_data] and
    two derived attributes, [rating_matrix] and [normalized_matrix], which
    [prepare_rating_matrix] overwrites.  Methods are written in
    state-passing style: a method takes the object and returns its result
    together with the object as it leaves it.

    Numbers.  User and movie identifiers are Python integers ([Z]).  A rating
    is an [int] in the initial collection and a [float] on the ad-hoc path
    of [main]; every finite value of either kind is a rational, so ratings
    are [Q] (the special floats nan and inf are outside the model), and the
    ratings column is numeric to pandas, as the program intends.  The
    pivot's mean is taken exactly.  The two numeric library calls that
    divide by square roots (standardisation, cosine similarity) and the
    three places where the libraries leave an order
    open (argsort ties, the order of equal counts, the iteration order of a
    set) are operations of the class [Backend]; [BackendLaws] records what
    their documentation promises and nothing more. *)

From Stdlib Require Import ZArith QArith Qabs Lia.
From stdpp Require Import base decidable option list sorting gmap strings.

#[local] Set Warnings "-clear-no-such-hyp".

Local Open Scope Z_scope.

(** ** Data model *)

(** A row of [movies_data]. *)
Record Movie := mkMovie {
  movieId : Z;
  title : string;
  genres : string;
}.

(** A row of [ratings_data]: the columns userId, movieId, rating. *)
Record Rating := mkRating {
  userId : Z;
  rated : Z;      (* the column movieId of ratings_data *)
  rating : Q;
}.

(** The result of [pivot_table]: row labels, column labels, and the cells. *)
Record Matrix := mkMatrix {
  index : list Z;
  columns : list Z;
  values : list (list Q);
}.

(** The attributes of a [MovieRecommenderML] object.  [__init__] sets the
    first two; the derived attributes do not exist before the first call
    of [prepare_rating_matrix], and every read of them follows such a
    call, so they start out as the empty matrix here. *)
Record MovieRecommenderML := mkRecommender {
  movies_data : list Movie;
  ratings_data : list Rating;
  rating_matrix : Matrix;
  normalized_matrix : list (list Q);
}.

Global Instance Movie_eq_dec : EqDecision Movie.
Proof. solve_decision. Defined.

(** The sample data of [__init__] (lines 12-18). *)
Definition sample_movies : list Movie :=
  [ mkMovie 1 "Inception" "Action|Sci-Fi";
    mkMovie 2 "The Matrix" "Sci-Fi|Action";
    mkMovie 3 "Interstellar" "Sci-Fi|Drama";
    mkMovie 4 "Dark Knight" "Action|Drama";
    mkMovie 5 "Pulp Fiction" "Crime|Drama" ].

Definition empty_matrix : Matrix := mkMatrix [] [] [].

(** [MovieRecommenderML()] *)
Definition init : MovieRecommenderML :=
  mkRecommender sample_movies [] empty_matrix [].

(** ** pandas and numpy operations with a determined result *)

(** Sorted distinct labels, as the axes of a pivot table are. *)
Definition sort_unique (l : list Z) : list Z :=
  merge_sort Z.le (remove_dups l).

(** The stored ratings that fall into the cell of user [u] and movie [m],
    in the order of the store. *)
Definition cell_values (rows : list Rating) (u m : Z) : list Q :=
  rating <$> filter (λ r, userId r = u ∧ rated r = m) rows.

Definition Qsum (l : list Q) : Q := foldr Qplus 0%Q l.

(** [aggfunc='mean'], the default of [pivot_table]. *)
Definition Qmean (l : list Q) : Q :=
  (Qsum l / inject_Z (Z.of_nat (length l)))%Q.

(** One cell: the mean of its values, or [fill_value=0] when it has none. *)
Definition pivot_cell (rows : list Rating) (u m : Z) : Q :=
  match cell_values rows u m with
  | [] => 0%Q
  | vs => Qmean vs
  end.

(** [ratings_data.pivot_table(index='userId', columns='movieId',
    values='rating', fill_value=0)] (lines 61-66). *)
Definition pivot_table (rows : list Rating) : Matrix :=
  let idx := sort_unique (userId <$> rows) in
  let cols := sort_unique (rated <$> rows) in
  mkMatrix idx cols ((λ u, (λ m, pivot_cell rows u m) <$> cols) <$> idx).

(** [DataFrame.empty]: some axis has length 0. *)
Definition matrix_empty (M : Matrix) : bool :=
  bool_decide (index M = [] ∨ columns M = []).

(** [ndarray.size]: the number of cells. *)
Definition array_size (N : list (list Q)) : nat :=
  sum_list (length <$> N).

(** [Index.get_loc] as a partial function, and as the code uses it: behind
    the membership test of line 87, where the label is present. *)
Definition loc (x : Z) (l : list Z) : option nat :=
  fst <$> list_find (λ y, y = x) l.

Definition get_loc (x : Z) (l : list Z) : nat :=
  default 0%nat (loc x l).

(** The cell at row label [u] and column label [m] ([.loc[u, m]]). *)
Definition matrix_at (M : Matrix) (u m : Z) : option Q :=
  i ← loc u (index M);
  j ← loc m (columns M);
  row ← values M !! i;
  row !! j.

(** A slice bound as Python normalises it for a sequence of length [len]. *)
Definition slice_bound (len : nat) (i : Z) : nat :=
  if decide (i < 0) then Z.to_nat (Z.max 0 (i + Z.of_nat len))
  else Z.to_nat (Z.min i (Z.of_nat len)).

(** [l[start:stop]] *)
Definition py_slice {A} (start stop : Z) (l : list A) : list A :=
  let a := slice_bound (length l) start in
  let b := slice_bound (length l) stop in
  take (b - a) (drop a l).

(** [Series.head(n)]: the first [n] rows, or all but the last [-n]. *)
Definition head_n {A} (n : Z) (l : list A) : list A :=
  if decide (0 ≤ n) then take (Z.to_nat n) l
  else take (length l - Z.to_nat (- n)) l.

(** The distinct values of a list with the number of times each occurs:
    what [value_counts] holds before it orders its rows. *)
Definition occurrences (x : Z) (l : list Z) : nat :=
  length (filter (λ y, y = x) l).

Definition count_values (l : list Z) : list (Z * nat) :=
  (λ x, (x, occurrences x l)) <$> remove_dups l.

(** ** The library operations the model leaves open *)

(** [fit_transform] is [StandardScaler().fit_transform], [cosine_similarity]
    is [cosine_similarity(v.reshape(1, -1), N)[0]], [argsort] is
    [ndarray.argsort()], [sort_values] is the ordering step of
    [Series.value_counts()] and [list_of_set] is [list(s)] for a set [s]. *)
Class Backend := mkBackend {
  fit_transform : list (list Q) → list (list Q);
  cosine_similarity : list Q → list (list Q) → list Q;
  argsort : list Q → list nat;
  sort_values : list (Z * nat) → list (Z * nat);
  list_of_set : gset Z → list Z;
}.

Global Instance Q_inhabited : Inhabited Q := populate 0%Q.

Global Instance Qle_dec : RelDecision Qle.
Proof.
  intros x y. destruct (Qle_bool x y) eqn:E; [left | right].
  - by apply Qle_bool_iff.
  - intros H. apply Qle_bool_iff in H. congruence.
Defined.

(** Entry [i] of a score vector, and the two orders the libraries sort by:
    positions by ascending score, counted values by descending count. *)
Definition score (s : list Q) (i : nat) : Q := s !!! i.

Definition score_le (s : list Q) : relation nat :=
  λ i j, (score s i <= score s j)%Q.

Definition count_ge : relation (Z * nat) :=
  λ a b, (b.2 ≤ a.2)%nat.

Global Instance score_le_dec s : RelDecision (score_le s).
Proof. intros i j. unfold score_le. apply _. Defined.

Global Instance count_ge_dec : RelDecision count_ge.
Proof. intros a b. unfold count_ge. apply _. Defined.

(** What the libraries document: standardisation keeps the shape of its
    argument; there is one similarity per row; [argsort] returns the
    positions of its argument in ascending order of their entries;
    [value_counts] orders its rows by descending count; listing a set
    yields each of its elements once. *)
Class BackendLaws (B : Backend) : Prop := {
  fit_transform_shape M : length <$> fit_transform M = length <$> M;
  cosine_similarity_length v N : length (cosine_similarity v N) = length N;
  argsort_perm s : argsort s ≡ₚ seq 0 (length s);
  argsort_sorted s : StronglySorted (score_le s) (argsort s);
  sort_values_perm l : sort_values l ≡ₚ l;
  sort_values_sorted l : StronglySorted count_ge (sort_values l);
  list_of_set_perm X : list_of_set X ≡ₚ elements X;
}.

(** ** The methods of [MovieRecommenderML] *)

Section methods.
Context {B : Backend}.

(** [prepare_rating_matrix] (lines 56-73). *)
Definition prepare_rating_matrix (self : MovieRecommenderML) : MovieRecommenderML :=
  let M := pivot_table (ratings_data self) in
  let N := if matrix_empty M then [] else fit_transform (values M) in
  mkRecommender (movies_data self) (ratings_data self) M N.

(** [find_similar_users] (lines 75-99). *)
Definition find_similar_users (user_id top_n : Z) (self : MovieRecommenderML)
    : list Z * MovieRecommenderML :=
  if decide (length (ratings_data self) < 5)%nat then ([], self) else
  let self := prepare_rating_matrix self in
  if decide (array_size (normalized_matrix self) = 0%nat
             ∨ user_id ∉ index (rating_matrix self))
  then ([], self) else
  let user_index := get_loc user_id (index (rating_matrix self)) in
  let user_vector := normalized_matrix self !!! user_index in
  let similarities := cosine_similarity user_vector (normalized_matrix self) in
  let similar_indices := py_slice 1 (top_n + 1) (reverse (argsort similarities)) in
  ((λ idx, index (rating_matrix self) !!! idx) <$> similar_indices, self).

(** The set built on lines 109-111: the movies of the target's rows. *)
Definition user_rated_movies (rows : list Rating) (user_id : Z) : gset Z :=
  list_to_set (rated <$> filter (λ r, userId r = user_id) rows).

(** The selection of lines 124-128 for one similar user. *)
Definition similar_user_ratings (rows : list Rating) (seen : gset Z)
    (similar_user : Z) : list Rating :=
  filter (λ r, userId r = similar_user ∧ (4 <= rating r)%Q
               ∧ rated r ∉ seen) rows.

(** The loop of lines 121-129. *)
Definition collect_candidates (rows : list Rating) (seen : gset Z)
    (similar_users : list Z) : list Z :=
  similar_users ≫= λ similar_user,
    rated <$> similar_user_ratings rows seen similar_user.

(** Line 133: [set(self.movies_data['movieId']) - user_rated_movies]. *)
Definition unseen_movies (movies : list Movie) (seen : gset Z) : gset Z :=
  list_to_set (movieId <$> movies) ∖ seen.

(** [pd.Series(candidate_movies).value_counts()] *)
Definition value_counts (l : list Z) : list (Z * nat) :=
  sort_values (count_values l).

(** Lines 140-142. *)
Definition top_movie_ids (n_recommendations : Z) (candidate_movies : list Z)
    : list Z :=
  (head_n n_recommendations (value_counts candidate_movies)).*1.

(** [recommend_movies] (lines 101-145), written against the method that
    line 118 calls, so that a statement can range over what that call
    returns and does to the object. *)
Definition recommend_movies_via
    (similar : Z → MovieRecommenderML → list Z * MovieRecommenderML)
    (user_id n_recommendations : Z) (self : MovieRecommenderML)
    : list Movie * MovieRecommenderML :=
  let self := prepare_rating_matrix self in
  let seen := user_rated_movies (ratings_data self) user_id in
  if decide (size seen = 0%nat) then ([], self) else
  let '(similar_users, self) := similar user_id self in
  let candidate_movies := collect_candidates (ratings_data self) seen similar_users in
  let candidate_movies :=
    match candidate_movies with
    | [] => list_of_set (unseen_movies (movies_data self) seen)
    | _ => candidate_movies
    end in
  match candidate_movies with
  | [] => ([], self)
  | _ =>
    let top := top_movie_ids n_recommendations candidate_movies in
    (filter (λ m, movieId m ∈ top) (movies_data self), self)
  end.

(** Line 118 calls [self.find_similar_users(user_id)], with [top_n=3]. *)
Definition recommend_movies : Z → Z → MovieRecommenderML
    → list Movie * MovieRecommenderML :=
  recommend_movies_via (λ user_id, find_similar_users user_id 3).

End methods.

(** ** The console session of [main] *)

(** A line typed at a prompt, by what the conversions make of it. *)
Inductive line :=
  | Num (z : Z)         (* text that int() accepts; float() accepts it too *)
  | Dec (q : Q)         (* text that float() accepts and int() rejects *)
  | Word (s : string).  (* any other text, in lower case *)

Definition parse_int (l : line) : option Z :=
  match l with Num z => Some z | _ => None end.

Definition parse_float (l : line) : option Q :=
  match l with
  | Num z => Some (inject_Z z)
  | Dec q => Some q
  | Word _ => None
  end.

Definition is_yes (l : line) : bool :=
  match l with Word s => bool_decide (s = "yes") | _ => false end.

(** The [while True] loop of lines 34-48 for one movie: lines are read
    until one is an integer between 0 and 5.  [None]: the input given so
    far is used up and the prompt is still waiting. *)
Fixpoint read_rating (input : list line) : option (Z * list line) :=
  match input with
  | [] => None
  | l :: input =>
    match parse_int l with
    | Some r => if decide (0 ≤ r ≤ 5) then Some (r, input) else read_rating input
    | None => read_rating input
    end
  end.

(** The [for] loop of lines 33-48 over the rows of [movies_data]. *)
Fixpoint collect_rows (user_id : Z) (movies : list Movie)
    (user_movie_ratings : list Rating) (input : list line)
    : option (list Rating * list line) :=
  match movies with
  | [] => Some (user_movie_ratings, input)
  | movie :: movies =>
    '(r, input) ← read_rating input;
    collect_rows user_id movies
      (if decide (0 < r)
       then user_movie_ratings ++ [mkRating user_id (movieId movie) (inject_Z r)]
       else user_movie_ratings)
      input
  end.

(** [collect_initial_ratings] (lines 23-54). *)
Definition collect_initial_ratings (user_id : Z) (self : MovieRecommenderML)
    (input : list line)
    : option (list Rating * MovieRecommenderML * list line) :=
  '(user_ratings_df, input) ← collect_rows user_id (movies_data self) [] input;
  Some (user_ratings_df,
        mkRecommender (movies_data self) (ratings_data self ++ user_ratings_df)
          (rating_matrix self) (normalized_matrix self),
        input).

(** Lines 175-180: the row is appended as it was typed. *)
Definition add_rating (user_id movie_id : Z) (r : Q) (self : MovieRecommenderML)
    : MovieRecommenderML :=
  mkRecommender (movies_data self)
    (ratings_data self ++ [mkRating user_id movie_id r])
    (rating_matrix self) (normalized_matrix self).

(** Lines 183-185; the flag says whether the loop goes on. *)
Definition ask_continue (self : MovieRecommenderML) (input : list line)
    : option (MovieRecommenderML * list line * bool) :=
  match input with
  | [] => None
  | continue_choice :: input => Some (self, input, is_yes continue_choice)
  end.

Section session.
Context {B : Backend}.

(** One pass through the body of the loop of [main] (lines 152-188).  A
    conversion that raises is caught on line 187 and the loop goes on with
    the object as it is.  Printing is not modelled. *)
Definition main_body (self : MovieRecommenderML) (input : list line)
    : option (MovieRecommenderML * list line * bool) :=
  match input with
  | [] => None
  | l :: input =>
    match parse_int l with
    | None => Some (self, input, true)
    | Some user_id =>
      '(_, self, input) ← collect_initial_ratings user_id self input;
      let '(_, self) := recommend_movies user_id 3 self in
      match input with
      | [] => None
      | rate_movie :: input =>
        if is_yes rate_movie then
          match input with
          | [] => None
          | l :: input =>
            match parse_int l with
            | None => Some (self, input, true)
            | Some movie_id =>
              match input with
              | [] => None
              | l :: input =>
                match parse_float l with
                | None => Some (self, input, true)
                | Some r => ask_continue (add_rating user_id movie_id r self) input
                end
              end
            end
          end
        else ask_continue self input
      end
    end
  end.

(** The loop of [main]; every pass reads at least one line, so a session
    of [n] lines ends or waits within [n + 1] passes. *)
Fixpoint main_loop (fuel : nat) (self : MovieRecommenderML) (input : list line)
    : option MovieRecommenderML :=
  match fuel with
  | O => None
  | S fuel =>
    '(self, input, again) ← main_body self input;
    if again : bool then main_loop fuel self input else Some self
  end.

(** [main()] on the lines [input]: the object when the session ends. *)
Definition main (input : list line) : option MovieRecommenderML :=
  main_loop (S (length input)) init input.

End session.

(** ** A backend that computes *)

(** An instance of [Backend] in exact arithmetic.  It runs the model on the
    sample stores below and shows that [BackendLaws] can be met; it stands
    in for the libraries and is not a model of their rounding. *)

Definition Qdot (v w : list Q) : Q := Qsum (zip_with Qmult v w).

(** Each column minus its mean.  The division by the column's standard
    deviation is left out: it is not rational.  On some stores this
    backend therefore ranks the users in another order than the
    libraries do; no theorem depends on it, and the instances below that
    run it state only what the libraries yield as well. *)
Definition centre_columns (M : list (list Q)) : list (list Q) :=
  (λ row, imap (λ j x, (x - Qmean ((λ r : list Q, r !!! j) <$> M))%Q) row) <$> M.

(** The cosine's sign times its square, which orders rows as the cosine
    does and is rational. *)
Definition signed_square_cosine (v : list Q) (N : list (list Q)) : list Q :=
  (λ w, let d := Qdot v w in (d * Qabs d / (Qdot v v * Qdot w w))%Q) <$> N.

Definition stable_argsort (s : list Q) : list nat :=
  merge_sort (score_le s) (seq 0 (length s)).

Definition stable_sort_values (l : list (Z * nat)) : list (Z * nat) :=
  merge_sort count_ge l.

Definition reference_backend : Backend :=
  mkBackend centre_columns signed_square_cosine stable_argsort
    stable_sort_values elements.

(** ** Notions the statements use *)

Section notions.
Context {B : Backend}.

(** The candidates that the loop of lines 121-129 accumulates for a target
    user: the list [candidate_movies] as it stands on line 131. *)
Definition similar_candidates (user_id : Z) (self : MovieRecommenderML) : list Z :=
  collect_candidates (ratings_data self)
    (user_rated_movies (ratings_data self) user_id)
    (find_similar_users user_id 3 (prepare_rating_matrix self)).1.

(** The candidate list as it stands on line 137. *)
Definition candidate_pool (u : Z) (self : MovieRecommenderML) : list Z :=
  match similar_candidates u self with
  | [] => list_of_set (unseen_movies (movies_data self)
            (user_rated_movies (ratings_data self) u))
  | c => c
  end.

(** The number of similar users from whom movie [a] appears as a rating of
    4 or more that the target has not rated. *)
Definition supporters (u : Z) (self : MovieRecommenderML) (a : Z) : nat :=
  length (filter
    (λ s, a ∈ rated <$> similar_user_ratings (ratings_data self)
                          (user_rated_movies (ratings_data self) u) s)
    (find_similar_users u 3 (prepare_rating_matrix self)).1).

(** The positions of the users as line 98 orders them before it slices:
    [similarities.argsort()[::-1]] for the target [user_id] in the matrix
    built from [rows]. *)
Definition similarity_ranking (user_id : Z) (rows : list Rating) : list nat :=
  let M := pivot_table rows in
  let N := fit_transform (values M) in
  reverse (argsort (cosine_similarity (N !!! get_loc user_id (index M)) N)).

End notions.

(** No user holds two rows for one movie. *)
Definition duplicate_free (rows : list Rating) : Prop :=
  ∀ s, NoDup (rated <$> filter (λ r, userId r = s) rows).

(** A row whose rating lies in (0, 5]. *)
Definition in_range (r : Rating) : Prop :=
  (0 < rating r)%Q ∧ (rating r <= 5)%Q.

(** A line that the loop of lines 34-48 accepts as a rating. *)
Definition accepted (l : line) : Prop :=
  ∃ r, parse_int l = Some r ∧ 0 ≤ r ≤ 5.

(** The rows that the answers [answers], one per movie, leave in
    [user_movie_ratings]: an answer of 0 leaves none. *)
Definition answered_rows (user_id : Z) (movies : list Movie) (answers : list Z)
    : list Rating :=
  omap (λ '(movie, r),
          if decide (0 < r)
          then Some (mkRating user_id (movieId movie) (inject_Z r))
          else None)
       (zip movies answers).

(** The object once [rows] are appended to its store (lines 52 and 180). *)
Definition with_rows (self : MovieRecommenderML) (rows : list Rating)
    : MovieRecommenderML :=
  mkRecommender (movies_data self) (ratings_data self ++ rows)
    (rating_matrix self) (normalized_matrix self).

(** ** Sample sessions and stores *)

(** The lines of one pass of the loop in which user [u] types the ratings
    [a] to [e] for the five movies, declines to rate another movie and
    answers the last prompt with [again]. *)
Definition one_pass (u a b c d e : Z) (again : string) : list line :=
  [Num u; Num a; Num b; Num c; Num d; Num e; Word "no"; Word again].

(** Four users; user 4 goes through the initial collection three times. *)
Definition crowd_session : list line :=
  one_pass 1 5 0 0 0 0 "yes" ++ one_pass 2 0 5 0 0 0 "yes"
  ++ one_pass 3 0 5 0 0 0 "yes" ++ one_pass 4 0 0 5 5 5 "yes"
  ++ one_pass 4 0 0 5 5 5 "yes" ++ one_pass 4 0 0 5 5 5 "no".

Definition crowd_rows : list Rating :=
  [ mkRating 1 1 5; mkRating 2 2 5; mkRating 3 2 5;
    mkRating 4 3 5; mkRating 4 4 5; mkRating 4 5 5;
    mkRating 4 3 5; mkRating 4 4 5; mkRating 4 5 5;
    mkRating 4 3 5; mkRating 4 4 5; mkRating 4 5 5 ].

Definition crowd : MovieRecommenderML :=
  mkRecommender sample_movies crowd_rows empty_matrix [].

(** User 1 rates movie 1 with 2, then rates it again with 4. *)
Definition rerate_session : list line :=
  [Num 1; Num 2; Num 0; Num 0; Num 0; Num 0; Word "yes"; Num 1; Num 4; Word "no"].

Definition rerate_rows : list Rating := [mkRating 1 1 2; mkRating 1 1 4].

(** User 1 answers the prompt of line 173 with 7. *)
Definition unchecked_session : list line :=
  [Num 1; Num 5; Num 4; Num 0; Num 3; Num 2; Word "yes"; Num 3; Num 7; Word "no"].

(** Users 1 and 2 hold the same ratings. *)
Definition twins : MovieRecommenderML :=
  mkRecommender sample_movies
    [ mkRating 1 1 5; mkRating 1 2 1; mkRating 2 1 5; mkRating 2 2 1;
      mkRating 3 1 1; mkRating 3 2 5 ]
    empty_matrix [].

(** User 1 has rated the five movies and is alone in the store. *)
Definition completist : MovieRecommenderML :=
  with_rows init (answered_rows 1 sample_movies [5; 4; 3; 2; 1]).

(** A single stored row: too few for the Similarity Engine. *)
Definition newcomer : MovieRecommenderML :=
  mkRecommender sample_movies [mkRating 1 1 5] empty_matrix [].

(** * Properties *)

(** ** The reference backend keeps the laws *)

Global Instance score_le_trans s : Transitive (score_le s).
Proof. intros i j k. unfold score_le. apply Qle_trans. Qed.

Global Instance score_le_total s : Total (score_le s).
Proof.
  intros i j. unfold score_le.
  destruct (Qlt_le_dec (score s i) (score s j)) as [H | H]; [left | right]; [|done].
  by apply Qlt_le_weak.
Qed.

Global Instance count_ge_trans : Transitive count_ge.
Proof. intros a b c. unfold count_ge. lia. Qed.

Global Instance count_ge_total : Total count_ge.
Proof. intros a b. unfold count_ge. lia. Qed.

Lemma reference_backend_laws : BackendLaws reference_backend.
Proof.
  split; simpl.
  - intros M. unfold centre_columns. rewrite <- list_fmap_compose.
    apply list_fmap_ext. intros i row _. simpl. apply length_imap.
  - intros v N. unfold signed_square_cosine. apply length_fmap.
  - intros s. apply merge_sort_Permutation.
  - intros s. apply StronglySorted_merge_sort; apply _.
  - intros l. apply merge_sort_Permutation.
  - intros l. apply StronglySorted_merge_sort; apply _.
  - done.
Qed.

(** ** The axes of the rating matrix *)

Lemma elem_of_sort_unique (x : Z) (l : list Z) : x ∈ sort_unique l ↔ x ∈ l.
Proof.
  unfold sort_unique. rewrite merge_sort_Permutation. apply elem_of_remove_dups.
Qed.

Lemma NoDup_sort_unique (l : list Z) : NoDup (sort_unique l).
Proof.
  unfold sort_unique. rewrite merge_sort_Permutation. apply NoDup_remove_dups.
Qed.

Lemma sort_unique_nil (l : list Z) : sort_unique l = [] ↔ l = [].
Proof.
  split; [| by intros ->].
  intros H. destruct l as [| x l]; [done |].
  assert (x ∈ sort_unique (x :: l)) as Hx by (apply elem_of_sort_unique; left).
  rewrite H in Hx. by apply elem_of_nil in Hx.
Qed.

(** The rows of the matrix are the users with a stored row. *)
Lemma elem_of_index_pivot_table (rows : list Rating) (u : Z) :
  u ∈ index (pivot_table rows) ↔ ∃ r, r ∈ rows ∧ userId r = u.
Proof.
  simpl. rewrite elem_of_sort_unique, list_elem_of_fmap. naive_solver.
Qed.

Lemma matrix_empty_pivot_table (rows : list Rating) :
  matrix_empty (pivot_table rows) = true ↔ rows = [].
Proof.
  unfold matrix_empty. rewrite bool_decide_eq_true. simpl.
  rewrite !sort_unique_nil. split.
  - intros [H | H]; by apply fmap_nil_inv in H.
  - intros ->. by left.
Qed.

Section properties.
Context {B : Backend}.

(** ** What the methods leave alone *)

Lemma prepare_rating_matrix_ratings self :
  ratings_data (prepare_rating_matrix self) = ratings_data self.
Proof. done. Qed.

Lemma prepare_rating_matrix_movies self :
  movies_data (prepare_rating_matrix self) = movies_data self.
Proof. done. Qed.

Lemma prepare_rating_matrix_idemp self :
  prepare_rating_matrix (prepare_rating_matrix self) = prepare_rating_matrix self.
Proof. done. Qed.

(** The object after [find_similar_users]: untouched behind the first
    gate, with the derived attributes rebuilt otherwise. *)
Lemma find_similar_users_state u top_n self :
  (find_similar_users u top_n self).2 =
    if decide (length (ratings_data self) < 5)%nat then self
    else prepare_rating_matrix self.
Proof.
  unfold find_similar_users.
  destruct (decide (length (ratings_data self) < 5)%nat); [done |].
  by destruct (decide _).
Qed.

Lemma find_similar_users_prepared u top_n self :
  (find_similar_users u top_n (prepare_rating_matrix self)).2 =
    prepare_rating_matrix self.
Proof. rewrite find_similar_users_state. by destruct (decide _). Qed.

Lemma user_rated_movies_spec (rows : list Rating) (u m : Z) :
  m ∈ user_rated_movies rows u ↔ ∃ r, r ∈ rows ∧ userId r = u ∧ rated r = m.
Proof.
  unfold user_rated_movies.
  rewrite elem_of_list_to_set, list_elem_of_fmap.
  setoid_rewrite list_elem_of_filter. naive_solver.
Qed.

Lemma recommend_movies_state u n self :
  (recommend_movies u n self).2 = prepare_rating_matrix self.
Proof.
  unfold recommend_movies, recommend_movies_via.
  destruct (decide _); [done |].
  destruct (find_similar_users u 3 (prepare_rating_matrix self)) as [su self'] eqn:E.
  assert (self' = prepare_rating_matrix self) as ->.
  { pose proof (find_similar_users_prepared u 3 self) as Hst. by rewrite E in Hst. }
  repeat case_match; done.
Qed.

(** C9.  [recommend_movies] leaves the Rating Store and the Catalog as it
    found them: whatever the arguments and the object, [ratings_data] and
    [movies_data] after the call are those before it.  The only attributes
    it writes are the derived ones, which it leaves as
    [prepare_rating_matrix] builds them from the unchanged store. *)
Theorem recommend_movies_reads_only (u n : Z) (self : MovieRecommenderML) :
  ratings_data (recommend_movies u n self).2 = ratings_data self
  ∧ movies_data (recommend_movies u n self).2 = movies_data self
  ∧ (recommend_movies u n self).2 = prepare_rating_matrix self.
Proof.
  rewrite recommend_movies_state. done.
Qed.

(** C3.  A target user with no stored row gets the empty result, whatever
    the other users' rows are; the Similarity Engine is not consulted:
    whatever the method called on line 118 would return or do to the
    object, the result is empty and the object is as
    [prepare_rating_matrix] alone leaves it. *)
Theorem recommend_movies_no_ratings
    (similar : Z → MovieRecommenderML → list Z * MovieRecommenderML)
    (u n : Z) (self : MovieRecommenderML) :
  (∀ r, r ∈ ratings_data self → userId r ≠ u) →
  recommend_movies_via similar u n self = ([], prepare_rating_matrix self)
  ∧ recommend_movies u n self = ([], prepare_rating_matrix self).
Proof.
  intros Hnone.
  assert (user_rated_movies (ratings_data self) u = ∅) as Hseen.
  { apply set_eq. intros m. rewrite user_rated_movies_spec. set_solver. }
  unfold recommend_movies, recommend_movies_via. simpl.
  rewrite Hseen, size_empty. split; by destruct (decide _).
Qed.

(** C2.  [find_similar_users] returns the empty list, for every user and
    every [top_n], when the store holds fewer than five rows, when the
    target user is no row label of the rating matrix, or when the matrix
    is empty: the rating matrix has an axis of length 0, or the normalized
    matrix has no cell. *)
Theorem find_similar_users_fails_soft (u top_n : Z) (self : MovieRecommenderML) :
  (length (ratings_data self) < 5)%nat
  ∨ u ∉ index (pivot_table (ratings_data self))
  ∨ matrix_empty (pivot_table (ratings_data self)) = true
  ∨ array_size (normalized_matrix (prepare_rating_matrix self)) = 0%nat →
  (find_similar_users u top_n self).1 = [].
Proof.
  intros H. unfold find_similar_users.
  destruct (decide _) as [| Hlen]; [done |].
  destruct (decide _) as [| Hgate]; [done |].
  exfalso. apply Hgate.
  destruct H as [H | [H | [H | H]]]; [done | by right | | by left].
  left. simpl. by rewrite H.
Qed.

(** ** What [recommend_movies] returns *)

Lemma recommend_movies_result u n self :
  (recommend_movies u n self).1 =
    if decide (size (user_rated_movies (ratings_data self) u) = 0%nat) then []
    else match candidate_pool u self with
         | [] => []
         | pool => filter (λ m, movieId m ∈ top_movie_ids n pool) (movies_data self)
         end.
Proof.
  unfold recommend_movies, recommend_movies_via, candidate_pool, similar_candidates.
  simpl. destruct (decide _); [done |].
  pose proof (find_similar_users_prepared u 3 self) as Hst.
  destruct (find_similar_users u 3 (prepare_rating_matrix self)) as [su self'].
  simpl in Hst. subst self'. simpl.
  destruct (collect_candidates _ _ su); [| done].
  by destruct (list_of_set _).
Qed.

(** Every returned record is a row of the catalog whose [movieId] is among
    the selected ones. *)
Lemma elem_of_recommend_movies u n self m :
  m ∈ (recommend_movies u n self).1 →
  m ∈ movies_data self
  ∧ movieId m ∈ top_movie_ids n (candidate_pool u self)
  ∧ size (user_rated_movies (ratings_data self) u) ≠ 0%nat.
Proof.
  rewrite recommend_movies_result.
  destruct (decide _); [by intros ?%elem_of_nil |].
  destruct (candidate_pool u self) eqn:E; [by intros ?%elem_of_nil |].
  rewrite list_elem_of_filter. naive_solver.
Qed.

End properties.

(** ** Counting and ranking candidates *)

Lemma head_n_take {A} (n : Z) (l : list A) : ∃ k, head_n n l = take k l.
Proof. unfold head_n. destruct (decide _); eauto. Qed.

Lemma head_n_fmap {A C} (f : A → C) (n : Z) (l : list A) :
  f <$> head_n n l = head_n n (f <$> l).
Proof.
  unfold head_n. rewrite length_fmap. destruct (decide _); apply fmap_take.
Qed.

Lemma elem_of_count_values (l : list Z) (x : Z) (c : nat) :
  (x, c) ∈ count_values l ↔ x ∈ l ∧ c = occurrences x l.
Proof.
  unfold count_values. rewrite list_elem_of_fmap.
  setoid_rewrite elem_of_remove_dups. naive_solver.
Qed.

Lemma count_values_fst (l : list Z) : (count_values l).*1 = remove_dups l.
Proof.
  unfold count_values. rewrite <- list_fmap_compose.
  rewrite <- (list_fmap_id (remove_dups l)) at 2. by apply list_fmap_ext.
Qed.

Lemma occurrences_pos (l : list Z) (x : Z) : (0 < occurrences x l)%nat ↔ x ∈ l.
Proof.
  unfold occurrences. split.
  - intros H. destruct (filter _ l) as [| y k] eqn:E; [simpl in H; lia |].
    assert (y ∈ filter (λ y, y = x) l) as Hy by (rewrite E; left).
    apply list_elem_of_filter in Hy as [-> ?]. done.
  - intros H. assert (x ∈ filter (λ y, y = x) l) as Hx
      by (by apply list_elem_of_filter).
    destruct (filter _ l); [by apply elem_of_nil in Hx | simpl; lia].
Qed.

Lemma occurrences_NoDup (l : list Z) (x : Z) :
  NoDup l → x ∈ l → occurrences x l = 1%nat.
Proof.
  unfold occurrences. induction 1 as [| y l Hy _ IH]; [by intros ?%elem_of_nil |].
  rewrite filter_cons. intros Hx. destruct (decide (y = x)) as [-> | Hne].
  - simpl. f_equal. destruct (filter _ l) as [| z k] eqn:E; [done |].
    assert (z ∈ filter (λ y, y = x) l) as Hz by (rewrite E; left).
    apply list_elem_of_filter in Hz as [-> ?]. done.
  - apply IH. apply elem_of_cons in Hx as [-> | ?]; done.
Qed.

(** ** Counting rows and counting users *)

Lemma occurrences_app (x : Z) (l k : list Z) :
  occurrences x (l ++ k) = (occurrences x l + occurrences x k)%nat.
Proof. unfold occurrences. by rewrite filter_app, length_app. Qed.

Lemma occurrences_NoDup_decide (l : list Z) (x : Z) :
  NoDup l → occurrences x l = if decide (x ∈ l) then 1%nat else 0%nat.
Proof.
  intros Hl. destruct (decide (x ∈ l)) as [Hx | Hx].
  - by apply occurrences_NoDup.
  - pose proof (occurrences_pos l x) as Hpos.
    destruct (occurrences x l); [done |]. exfalso. apply Hx, Hpos. lia.
Qed.

Lemma similar_user_ratings_sublist (rows : list Rating) (seen : gset Z) (s : Z) :
  similar_user_ratings rows seen s `sublist_of` filter (λ r, userId r = s) rows.
Proof.
  unfold similar_user_ratings. induction rows as [| r rows IH]; [done |].
  rewrite !filter_cons.
  destruct (decide (userId r = s ∧ _)) as [[Hs _] | Hn];
    destruct (decide (userId r = s)) as [| Hne]; try done.
  - by apply sublist_skip.
  - by apply sublist_cons.
Qed.

Section counting.
Context {B : Backend}.

(** In a store without duplicate rows a movie occurs among the candidates
    once for every similar user who rates it 4 or more. *)
Lemma occurrences_supporters (u : Z) (self : MovieRecommenderML) (a : Z) :
  duplicate_free (ratings_data self) →
  occurrences a (similar_candidates u self) = supporters u self a.
Proof.
  intros Hfree. unfold similar_candidates, supporters, collect_candidates.
  induction ((find_similar_users u 3 (prepare_rating_matrix self)).1)
    as [| s su IH]; [done |].
  rewrite bind_cons, occurrences_app, IH, filter_cons.
  rewrite occurrences_NoDup_decide.
  - by destruct (decide _).
  - eapply sublist_NoDup; [apply (Hfree s) |].
    apply fmap_sublist, similar_user_ratings_sublist.
Qed.

End counting.

Lemma StronglySorted_sublist {A} (R : relation A) (l1 l2 : list A) :
  l1 `sublist_of` l2 → StronglySorted R l2 → StronglySorted R l1.
Proof.
  induction 1 as [| x l1 l2 Hsb IH | x l1 l2 Hsb IH].
  - done.
  - intros [Hall Hs]%StronglySorted_cons. apply StronglySorted_cons.
    split; [| auto]. rewrite Forall_forall in *. intros y Hy. apply Hall.
    by eapply elem_of_sublist.
  - intros [_ Hs]%StronglySorted_cons. auto.
Qed.

Lemma elements_nil_empty (X : gset Z) : [] ≡ₚ elements X → X = ∅.
Proof.
  intros H. apply leibniz_equiv, elements_empty_inv.
  symmetry in H. by apply Permutation_nil_r in H.
Qed.

Section lawful.
Context {B : Backend} {HB : BackendLaws B}.

Lemma elem_of_value_counts (l : list Z) (x : Z) (c : nat) :
  (x, c) ∈ value_counts l ↔ x ∈ l ∧ c = occurrences x l.
Proof.
  unfold value_counts. rewrite sort_values_perm. apply elem_of_count_values.
Qed.

Lemma value_counts_fst_perm (l : list Z) : (value_counts l).*1 ≡ₚ remove_dups l.
Proof.
  unfold value_counts. rewrite sort_values_perm. by rewrite count_values_fst.
Qed.

(** The selected identifiers are candidates. *)
Lemma elem_of_top_movie_ids (n : Z) (l : list Z) (x : Z) :
  x ∈ top_movie_ids n l → x ∈ l.
Proof.
  unfold top_movie_ids. destruct (head_n_take n (value_counts l)) as [k ->].
  intros H. apply list_elem_of_fmap in H as ([y c] & -> & H).
  apply subseteq_take in H. by apply elem_of_value_counts in H as [? _].
Qed.

(** The selection is a prefix of a ranking by descending count: with a
    movie it holds every movie that occurs more often. *)
Lemma top_movie_ids_monotone (n : Z) (l : list Z) (a b : Z) :
  (occurrences b l < occurrences a l)%nat →
  b ∈ top_movie_ids n l → a ∈ top_movie_ids n l.
Proof.
  intros Hlt. unfold top_movie_ids.
  destruct (head_n_take n (value_counts l)) as [k ->].
  intros Hb. apply list_elem_of_fmap in Hb as ([b' cb] & Eb & Hb).
  simpl in Eb. subst b'.
  assert ((b, cb) ∈ value_counts l) as Hb' by (by apply subseteq_take in Hb).
  apply elem_of_value_counts in Hb' as [_ ->].
  assert ((a, occurrences a l) ∈ value_counts l) as Ha.
  { apply elem_of_value_counts. split; [| done]. apply occurrences_pos. lia. }
  rewrite <- (take_drop k (value_counts l)) in Ha.
  apply elem_of_app in Ha as [Ha | Ha].
  - apply list_elem_of_fmap. by exists (a, occurrences a l).
  - pose proof (sort_values_sorted (count_values l)) as Hs.
    fold (value_counts l) in Hs. rewrite <- (take_drop k (value_counts l)) in Hs.
    pose proof (StronglySorted_app_1_elem_of _ _ _ _ _ Hs Hb Ha) as Hge.
    unfold count_ge in Hge. simpl in Hge. lia.
Qed.

(** C1.  No returned record carries a [movieId] for which the store holds
    a row of the target user, whatever that row's rating is; so none
    carries a movie the target has rated above 0.  Candidates taken from
    similar users pass the filter of line 127 and the fallback is the
    catalog minus the target's movies. *)
Theorem recommend_movies_excludes_rated
    (u n : Z) (self : MovieRecommenderML) (m : Movie) (r : Rating) :
  m ∈ (recommend_movies u n self).1 →
  r ∈ ratings_data self → userId r = u →
  rated r ≠ movieId m.
Proof.
  intros Hm Hr Hu Heq.
  apply elem_of_recommend_movies in Hm as (_ & Htop & _).
  apply elem_of_top_movie_ids in Htop.
  assert (movieId m ∈ user_rated_movies (ratings_data self) u) as Hseen.
  { apply user_rated_movies_spec. by exists r. }
  unfold candidate_pool in Htop.
  destruct (similar_candidates u self) as [| c cs] eqn:E.
  - rewrite list_of_set_perm in Htop. apply elem_of_elements in Htop.
    unfold unseen_movies in Htop. set_solver.
  - rewrite <- E in Htop. unfold similar_candidates, collect_candidates in Htop.
    apply list_elem_of_bind in Htop as (su & Hin & _).
    apply list_elem_of_fmap in Hin as (r' & Er & Hr').
    unfold similar_user_ratings in Hr'.
    apply list_elem_of_filter in Hr' as [(_ & _ & Hnot) _].
    by rewrite <- Er in Hnot.
Qed.

(** C10.  The returned records are rows of [movies_data] in the order of
    [movies_data]: the result is the catalog filtered by membership in a
    list of identifiers, so the counts decide which rows are kept and
    never their order.  For the catalog of [__init__] the order is that of
    ascending [movieId]. *)
Theorem recommend_movies_catalog_order (u n : Z) (self : MovieRecommenderML) :
  (recommend_movies u n self).1 `sublist_of` movies_data self
  ∧ (∃ ids : list Z,
       (recommend_movies u n self).1 = filter (λ m, movieId m ∈ ids) (movies_data self))
  ∧ (movies_data self = sample_movies →
       StronglySorted Z.lt (movieId <$> (recommend_movies u n self).1)).
Proof.
  assert (∃ ids : list Z,
    (recommend_movies u n self).1 = filter (λ m, movieId m ∈ ids) (movies_data self))
    as [ids Hids].
  { rewrite recommend_movies_result.
    assert (filter (λ m, movieId m ∈ @nil Z) (movies_data self) = []) as Hnil.
    { induction (movies_data self) as [| x l IH]; [done |].
      rewrite filter_cons. destruct (decide _) as [H | _]; [| done].
      by apply elem_of_nil in H. }
    destruct (decide _); [by exists [] |].
    destruct (candidate_pool u self) eqn:E; [by exists [] |]. eauto. }
  assert ((recommend_movies u n self).1 `sublist_of` movies_data self) as Hsub.
  { rewrite Hids. apply sublist_filter. }
  split_and!; [done | by exists ids |].
  intros Hcat. rewrite Hcat in Hsub.
  assert (StronglySorted Z.lt (movieId <$> sample_movies)) as Hs.
  { simpl. repeat (constructor; [| repeat constructor; lia]). constructor. }
  eapply StronglySorted_sublist; [| exact Hs]. by apply fmap_sublist.
Qed.

(** C6, as amended.  Selection is monotonic in the occurrence count, where
    a movie's count is the number of entries it has in the candidate list:
    one for every stored row of a similar user that rates it 4 or more.  If
    [a] has strictly more entries than [b] then the selected identifiers
    hold [a] whenever they hold [b], and so do the returned records for a
    movie of the catalog, for every [n_recommendations].  In a store where
    no user holds two rows for one movie the count of a movie is the number
    of similar users who rate it 4 or more. *)
Theorem recommend_movies_monotone_in_count
    (u n : Z) (self : MovieRecommenderML) (a b : Z) :
  (occurrences b (similar_candidates u self)
     < occurrences a (similar_candidates u self))%nat →
  (b ∈ top_movie_ids n (similar_candidates u self) →
   a ∈ top_movie_ids n (similar_candidates u self))
  ∧ (∀ ma mb : Movie,
       mb ∈ (recommend_movies u n self).1 → movieId mb = b →
       ma ∈ movies_data self → movieId ma = a →
       ma ∈ (recommend_movies u n self).1)
  ∧ (duplicate_free (ratings_data self) →
       occurrences a (similar_candidates u self) = supporters u self a
       ∧ occurrences b (similar_candidates u self) = supporters u self b).
Proof.
  intros Hlt. split_and!; [by apply top_movie_ids_monotone | |
    by split; apply occurrences_supporters].
  intros ma mb Hmb <- Hma <-.
  assert (candidate_pool u self = similar_candidates u self) as Hpool.
  { unfold candidate_pool. destruct (similar_candidates u self); [| done].
    unfold occurrences in Hlt. simpl in Hlt. lia. }
  pose proof Hmb as (_ & Htop & Hseen)%elem_of_recommend_movies.
  rewrite Hpool in Htop.
  rewrite recommend_movies_result, Hpool.
  destruct (decide _); [done |].
  destruct (similar_candidates u self) as [| c cs] eqn:E.
  { unfold occurrences in Hlt. simpl in Hlt. lia. }
  apply list_elem_of_filter. split; [| done].
  by eapply top_movie_ids_monotone.
Qed.

(** The fallback in terms of the set that line 133 builds. *)
Lemma recommend_movies_fallback_pool (u n : Z) (self : MovieRecommenderML) :
  similar_candidates u self = [] →
  unseen_movies (movies_data self) (user_rated_movies (ratings_data self) u) ≠ ∅ →
  let seen := user_rated_movies (ratings_data self) u in
  let unseen := unseen_movies (movies_data self) seen in
  (∀ m, m ∈ (recommend_movies u n self).1 →
        m ∈ movies_data self ∧ movieId m ∈ unseen)
  ∧ (size seen ≠ 0%nat →
       ∃ order : list Z, order ≡ₚ elements unseen
         ∧ (recommend_movies u n self).1
           = filter (λ m, movieId m ∈ head_n n order) (movies_data self))
  ∧ (size seen ≠ 0%nat → 0 < n → (recommend_movies u n self).1 ≠ []).
Proof.
  intros Hnone Hunseen seen unseen.
  assert (candidate_pool u self = list_of_set unseen) as Hpool.
  { unfold candidate_pool. by rewrite Hnone. }
  assert (size seen ≠ 0%nat →
    ∃ order : list Z, order ≡ₚ elements unseen
      ∧ (recommend_movies u n self).1
        = filter (λ m, movieId m ∈ head_n n order) (movies_data self)) as Hsel.
  { intros Hsize. exists (value_counts (list_of_set unseen)).*1. split.
    - rewrite value_counts_fst_perm. rewrite <- (list_of_set_perm unseen).
      apply NoDup_Permutation; [apply NoDup_remove_dups | | apply elem_of_remove_dups].
      rewrite list_of_set_perm. apply NoDup_elements.
    - rewrite recommend_movies_result, Hpool.
      destruct (decide _); [done |].
      destruct (list_of_set unseen) as [| c cs] eqn:E.
      + exfalso. apply Hunseen, elements_nil_empty.
        pose proof (list_of_set_perm unseen) as Hp. by rewrite E in Hp.
      + unfold top_movie_ids. by rewrite head_n_fmap. }
  split_and!; [| done |].
  - intros m (Hm & Htop & _)%elem_of_recommend_movies. split; [done |].
    rewrite Hpool in Htop. apply elem_of_top_movie_ids in Htop.
    rewrite list_of_set_perm in Htop. by apply elem_of_elements in Htop.
  - intros Hsize Hn. destruct (Hsel Hsize) as (order & Hperm & ->).
    destruct order as [| x order].
    { exfalso. by apply Hunseen, elements_nil_empty. }
    assert (x ∈ unseen) as Hx.
    { apply elem_of_elements. rewrite <- Hperm. left. }
    unfold unseen, unseen_movies in Hx.
    apply elem_of_difference in Hx as [Hx _].
    apply elem_of_list_to_set, list_elem_of_fmap in Hx as (m & -> & Hm).
    intros Hnil.
    assert (m ∈ filter (λ m0, movieId m0 ∈ head_n n (movieId m :: order))
                  (movies_data self)) as Hin.
    { apply list_elem_of_filter. split; [| done]. unfold head_n.
      destruct (decide _); [| lia].
      destruct (Z.to_nat n) eqn:En; [lia |]. left. }
    rewrite Hnil in Hin. by apply elem_of_nil in Hin.
Qed.

(** What line 133 leaves in the set: the movieIds of the catalog for which
    the store holds no row of the target. *)
Lemma elem_of_unseen_movies (movies : list Movie) (rows : list Rating) (u x : Z) :
  x ∈ unseen_movies movies (user_rated_movies rows u) ↔
  (∃ m, m ∈ movies ∧ movieId m = x)
  ∧ ∀ r, r ∈ rows → userId r = u → rated r ≠ x.
Proof.
  unfold unseen_movies.
  rewrite elem_of_difference, elem_of_list_to_set, list_elem_of_fmap,
    user_rated_movies_spec.
  naive_solver.
Qed.

Lemma user_rated_movies_size (rows : list Rating) (u : Z) :
  size (user_rated_movies rows u) ≠ 0%nat ↔ ∃ r, r ∈ rows ∧ userId r = u.
Proof.
  rewrite size_non_empty_iff. split.
  - intros Hne. apply set_choose in Hne as [x Hx].
    apply user_rated_movies_spec in Hx. naive_solver.
  - intros (r & Hr & Hu) Hempty.
    assert (rated r ∈ user_rated_movies rows u) as Hx
      by (apply user_rated_movies_spec; eauto).
    rewrite Hempty in Hx. by apply not_elem_of_empty in Hx.
Qed.

(** C5.  When the similar users yield no candidate and the catalog holds a
    movie for which the store has no row of the target, the result is
    drawn from exactly the catalog movies the target has not rated: every
    returned record is a catalog row for whose [movieId] the store holds
    no row of the target; for a target with a stored row the records are
    those whose [movieId] is among the first [n_recommendations] of an
    enumeration, without repetition, of exactly the movieIds of the
    catalog that no row of the target carries; and for a positive
    [n_recommendations] some record is returned. *)
Theorem recommend_movies_fallback (u n : Z) (self : MovieRecommenderML) :
  similar_candidates u self = [] →
  (∃ m, m ∈ movies_data self
      ∧ ∀ r, r ∈ ratings_data self → userId r = u → rated r ≠ movieId m) →
  (∀ m, m ∈ (recommend_movies u n self).1 →
        m ∈ movies_data self
        ∧ ∀ r, r ∈ ratings_data self → userId r = u → rated r ≠ movieId m)
  ∧ ((∃ r, r ∈ ratings_data self ∧ userId r = u) →
       ∃ order : list Z,
         NoDup order
         ∧ (∀ x, x ∈ order ↔
                 (∃ m, m ∈ movies_data self ∧ movieId m = x)
                 ∧ ∀ r, r ∈ ratings_data self → userId r = u → rated r ≠ x)
         ∧ (recommend_movies u n self).1
           = filter (λ m, movieId m ∈ head_n n order) (movies_data self))
  ∧ ((∃ r, r ∈ ratings_data self ∧ userId r = u) → 0 < n →
       (recommend_movies u n self).1 ≠ []).
Proof.
  intros Hnone (m0 & Hm0 & Hfree).
  assert (unseen_movies (movies_data self)
            (user_rated_movies (ratings_data self) u) ≠ ∅) as Hunseen.
  { intros Hempty.
    assert (movieId m0 ∈ unseen_movies (movies_data self)
                           (user_rated_movies (ratings_data self) u)) as Hin
      by (apply elem_of_unseen_movies; eauto).
    rewrite Hempty in Hin. by apply not_elem_of_empty in Hin. }
  destruct (recommend_movies_fallback_pool u n self Hnone Hunseen)
    as (Hsub & Hsel & Hne).
  split_and!.
  - intros m Hm. destruct (Hsub m Hm) as [Hcat Hin]. split; [done |].
    by apply elem_of_unseen_movies in Hin as [_ Hin].
  - intros Hrow%user_rated_movies_size.
    destruct (Hsel Hrow) as (order & Hperm & Hres).
    exists order. split_and!; [| | done].
    + rewrite Hperm. apply NoDup_elements.
    + intros x. by rewrite Hperm, elem_of_elements, elem_of_unseen_movies.
  - intros Hrow%user_rated_movies_size. by apply Hne.
Qed.

(** ** The ranking of [find_similar_users] *)

Lemma py_slice_from_1 {A} (top_n : Z) (l : list A) :
  0 ≤ top_n → py_slice 1 (top_n + 1) l = take (Z.to_nat top_n) (drop 1 l).
Proof.
  intros Hn. unfold py_slice, slice_bound.
  destruct (decide (1 < 0)) as [| _]; [lia |].
  destruct (decide (top_n + 1 < 0)) as [| _]; [lia |].
  destruct l as [| x l]; [simpl; by rewrite !take_nil |].
  replace (Z.to_nat (Z.min 1 (Z.of_nat (length (x :: l))))) with 1%nat
    by (simpl length; lia).
  simpl drop. rewrite drop_0.
  destruct (decide (Z.to_nat top_n ≤ length l)%nat) as [Hle | Hgt].
  - f_equal. simpl length. lia.
  - rewrite (take_ge l (Z.to_nat top_n)) by lia.
    apply take_ge. simpl length. lia.
Qed.

Lemma loc_elem_of (x : Z) (l : list Z) :
  x ∈ l → l !! get_loc x l = Some x.
Proof.
  intros Hx. unfold get_loc, loc.
  destruct (list_find_elem_of (λ y, y = x) l x Hx eq_refl) as [[i y] Hf].
  rewrite Hf. simpl. apply list_find_Some in Hf as (Hi & -> & _). done.
Qed.

Lemma loc_Some_elem_of (x : Z) (l : list Z) :
  x ∈ l → ∃ i, loc x l = Some i ∧ l !! i = Some x.
Proof.
  intros Hx. unfold loc.
  destruct (list_find_elem_of (λ y, y = x) l x Hx eq_refl) as [[i y] Hf].
  rewrite Hf. exists i. apply list_find_Some in Hf as (Hi & -> & _). done.
Qed.

Lemma array_size_pivot_table (rows : list Rating) :
  rows ≠ [] → array_size (values (pivot_table rows)) ≠ 0%nat.
Proof.
  intros Hne. unfold array_size. simpl.
  destruct (sort_unique (userId <$> rows)) as [| u us] eqn:Eu.
  { apply sort_unique_nil, fmap_nil_inv in Eu. done. }
  destruct (sort_unique (rated <$> rows)) as [| m ms] eqn:Em.
  { apply sort_unique_nil, fmap_nil_inv in Em. done. }
  simpl. lia.
Qed.

Lemma StronglySorted_reverse {A} (R : relation A) `{!Transitive R} (l : list A) :
  StronglySorted R l → StronglySorted (flip R) (reverse l).
Proof.
  intros H. apply Sorted_StronglySorted; [apply _ |].
  by apply Sorted_reverse, StronglySorted_Sorted.
Qed.

(** C4.  For a target user who is a row of the rating matrix, in a store of
    at least five rows: the normalized matrix has one row per user; one
    similarity is computed between the target's normalized row and every
    normalized row, the target's own included; the users are ranked by
    descending similarity; the entry at rank 0 and no other is dropped; and
    the userIds at ranks 1 to [top_n] are returned in that order. *)
Theorem find_similar_users_ranking (u top_n : Z) (self : MovieRecommenderML) :
  (5 ≤ length (ratings_data self))%nat →
  u ∈ index (pivot_table (ratings_data self)) →
  0 ≤ top_n →
  let M := pivot_table (ratings_data self) in
  let N := fit_transform (values M) in
  let user_vector := N !!! get_loc u (index M) in
  let similarities := cosine_similarity user_vector N in
  let ranking := reverse (argsort similarities) in
  index M !! get_loc u (index M) = Some u
  ∧ length N = length (index M)
  ∧ length similarities = length (index M)
  ∧ ranking ≡ₚ seq 0 (length (index M))
  ∧ StronglySorted (flip (score_le similarities)) ranking
  ∧ (find_similar_users u top_n self).1
    = (λ i, index M !!! i) <$> take (Z.to_nat top_n) (drop 1 ranking).
Proof.
  intros Hlen Hu Hn M N user_vector similarities ranking.
  assert (ratings_data self ≠ []) as Hrows.
  { intros E. rewrite E in Hlen. simpl in Hlen. lia. }
  assert (matrix_empty M = false) as Hempty.
  { destruct (matrix_empty M) eqn:E; [| done].
    by apply matrix_empty_pivot_table in E. }
  assert (length N = length (index M)) as HN.
  { unfold N. rewrite <- (length_fmap length), fit_transform_shape, length_fmap.
    unfold M. simpl. by rewrite length_fmap. }
  assert (length similarities = length (index M)) as Hsim.
  { unfold similarities. by rewrite cosine_similarity_length. }
  split_and!.
  - by apply loc_elem_of.
  - done.
  - done.
  - unfold ranking. rewrite reverse_Permutation, argsort_perm. by rewrite Hsim.
  - unfold ranking. apply StronglySorted_reverse; [apply _ |]. apply argsort_sorted.
  - unfold find_similar_users.
    destruct (decide _) as [| _]; [lia |].
    unfold prepare_rating_matrix. simpl.
    fold M. rewrite Hempty. fold N.
    destruct (decide _) as [[Hsz | Hnot] | _].
    + exfalso. revert Hsz. unfold array_size, N.
      rewrite fit_transform_shape. by apply array_size_pivot_table.
    + done.
    + fold user_vector similarities ranking. by rewrite py_slice_from_1.
Qed.

End lawful.

(** ** The pivot and duplicate rows *)

Lemma cell_values_elem_of (rows : list Rating) (u m : Z) :
  cell_values rows u m ≠ [] → ∃ r, r ∈ rows ∧ userId r = u ∧ rated r = m.
Proof.
  unfold cell_values. intros Hne.
  destruct (filter _ rows) as [| r k] eqn:E; [done |].
  assert (r ∈ filter (λ r, userId r = u ∧ rated r = m) rows) as Hr
    by (rewrite E; left).
  apply list_elem_of_filter in Hr. naive_solver.
Qed.

(** C7, as amended.  A cell of the rating matrix for which the store holds
    one row or several holds the arithmetic mean of the ratings of all
    those rows: duplicates of a (userId, movieId) pair collapse to their
    mean, the default aggregation of [pivot_table]. *)
Theorem pivot_table_collapses_to_mean (rows : list Rating) (u m : Z) :
  cell_values rows u m ≠ [] →
  matrix_at (pivot_table rows) u m = Some (Qmean (cell_values rows u m)).
Proof.
  intros Hne.
  destruct (cell_values_elem_of rows u m Hne) as (r & Hr & Hu & Hm).
  assert (u ∈ sort_unique (userId <$> rows)) as Hidx.
  { apply elem_of_sort_unique, list_elem_of_fmap. by exists r. }
  assert (m ∈ sort_unique (rated <$> rows)) as Hcol.
  { apply elem_of_sort_unique, list_elem_of_fmap. by exists r. }
  destruct (loc_Some_elem_of _ _ Hidx) as (i & Hi & Hiu).
  destruct (loc_Some_elem_of _ _ Hcol) as (j & Hj & Hjm).
  unfold matrix_at. simpl. rewrite Hi, Hj. simpl.
  rewrite list_lookup_fmap, Hiu. simpl.
  rewrite list_lookup_fmap, Hjm. simpl.
  unfold pivot_cell. by destruct (cell_values rows u m).
Qed.

(** ** The ratings that a session stores *)

Lemma read_rating_range (input rest : list line) (r : Z) :
  read_rating input = Some (r, rest) → 0 ≤ r ≤ 5.
Proof.
  induction input as [| l input IH]; [done |]. simpl.
  destruct (parse_int l) as [z |]; [| done].
  destruct (decide _); [| done]. by intros [= <- _].
Qed.

Lemma collect_rows_in_range (user_id : Z) (movies : list Movie)
    (acc rows : list Rating) (input rest : list line) :
  Forall in_range acc →
  collect_rows user_id movies acc input = Some (rows, rest) →
  Forall in_range rows.
Proof.
  revert acc input. induction movies as [| movie movies IH]; intros acc input Hacc.
  - simpl. by intros [= <- _].
  - simpl. destruct (read_rating input) as [[r input'] |] eqn:E; [| done].
    simpl. apply IH. apply read_rating_range in E.
    destruct (decide (0 < r)); [| done].
    apply Forall_app. split; [done |]. constructor; [| constructor].
    unfold in_range. simpl. split.
    + replace 0%Q with (inject_Z 0) by done. rewrite <- Zlt_Qlt. lia.
    + replace 5%Q with (inject_Z 5) by done. rewrite <- Zle_Qle. lia.
Qed.

(** The initial collection keeps the store within (0, 5]: a typed 0 adds
    no row and every added row carries an integer from 1 to 5. *)
Lemma collect_initial_ratings_in_range (user_id : Z)
    (self self' : MovieRecommenderML) (input rest : list line) (df : list Rating) :
  Forall in_range (ratings_data self) →
  collect_initial_ratings user_id self input = Some (df, self', rest) →
  Forall in_range (ratings_data self').
Proof.
  intros Hinv. unfold collect_initial_ratings.
  destruct (collect_rows _ _ _ _) as [[rows input'] |] eqn:E; [| done].
  simpl. intros Heq. injection Heq as _ <- _. simpl.
  apply Forall_app. split; [done |].
  eapply collect_rows_in_range; [| exact E]. constructor.
Qed.

(** ** The loop of [main] and its fuel *)

Lemma read_rating_shrinks (input rest : list line) (r : Z) :
  read_rating input = Some (r, rest) → (length rest < length input)%nat.
Proof.
  induction input as [| l input IH]; [done |]. simpl.
  destruct (parse_int l) as [z |].
  - destruct (decide _).
    + intros [= _ <-]. lia.
    + intros H. apply IH in H. lia.
  - intros H. apply IH in H. lia.
Qed.

Lemma collect_rows_shrinks (user_id : Z) (movies : list Movie)
    (acc rows : list Rating) (input rest : list line) :
  collect_rows user_id movies acc input = Some (rows, rest) →
  (length rest ≤ length input)%nat.
Proof.
  revert acc input. induction movies as [| movie movies IH]; intros acc input.
  - simpl. by intros [= _ <-].
  - simpl. destruct (read_rating input) as [[r input'] |] eqn:E; [| done].
    simpl. intros H. apply IH in H. apply read_rating_shrinks in E. lia.
Qed.

Section fuel.
Context {B : Backend}.

(** Every pass of the loop reads at least one line. *)
Lemma main_body_shrinks (self self' : MovieRecommenderML)
    (input rest : list line) (again : bool) :
  main_body self input = Some (self', rest, again) →
  (length rest < length input)%nat.
Proof.
  destruct input as [| l input]; [done |]. simpl.
  destruct (parse_int l) as [user_id |]; [| intros [= _ <- _]; lia].
  unfold collect_initial_ratings.
  destruct (collect_rows _ _ _ _) as [[rows input1] |] eqn:E; [| done].
  apply collect_rows_shrinks in E. simpl.
  destruct (recommend_movies _ _ _) as [recs self1].
  destruct input1 as [| a input2]; [done |]. simpl in E.
  unfold ask_continue.
  destruct (is_yes a).
  - destruct input2 as [| l1 input3]; [done |].
    destruct (parse_int l1); [| intros [= _ <- _]; simpl in *; lia].
    destruct input3 as [| l2 input4]; [done |].
    destruct (parse_float l2); [| intros [= _ <- _]; simpl in *; lia].
    destruct input4 as [| c input5]; [done |].
    intros [= _ <- _]. simpl in *. lia.
  - destruct input2 as [| c input3]; [done |].
    intros [= _ <- _]. simpl in *. lia.
Qed.

(** So the outcome of a session does not depend on the fuel once the fuel
    exceeds the number of lines: [None] from [main] means that a prompt
    is waiting for a line, never that the fuel ran out. *)
Lemma main_loop_fuel (f1 f2 : nat) (self : MovieRecommenderML) (input : list line) :
  (length input < f1)%nat → (length input < f2)%nat →
  main_loop f1 self input = main_loop f2 self input.
Proof.
  revert f2 self input. induction f1 as [| f1 IH]; intros f2 self input H1 H2; [lia |].
  destruct f2 as [| f2]; [lia |]. simpl.
  destruct (main_body self input) as [[[self' rest] again] |] eqn:E; [| done].
  simpl. destruct again; [| done].
  apply main_body_shrinks in E. apply IH; lia.
Qed.

End fuel.

(** ** The crowd store under any backend *)

Lemma occurrences_Permutation (x : Z) (l k : list Z) :
  l ≡ₚ k → occurrences x l = occurrences x k.
Proof. unfold occurrences. by intros ->. Qed.

Section crowd.
Context {B : Backend} {HB : BackendLaws B}.

Lemma NoDup_top_movie_ids (n : Z) (l : list Z) : NoDup (top_movie_ids n l).
Proof.
  unfold top_movie_ids. rewrite head_n_fmap.
  destruct (head_n_take n ((value_counts l).*1)) as [k ->].
  eapply sublist_NoDup; [| apply sublist_take].
  rewrite value_counts_fst_perm. apply NoDup_remove_dups.
Qed.

Lemma length_top_movie_ids (n : Z) (l : list Z) :
  0 ≤ n →
  length (top_movie_ids n l) = (Z.to_nat n `min` length (remove_dups l))%nat.
Proof.
  intros Hn. unfold top_movie_ids, head_n. destruct (decide _); [| lia].
  rewrite length_fmap, length_take. f_equal.
  rewrite <- (length_fmap fst). by rewrite value_counts_fst_perm.
Qed.

(** Whatever the backend, once the similar users of user 1 in the crowd
    store are users 2, 3 and 4, in any order, the recommendation for user
    1 is movies 3, 4 and 5: movie 2, rated 5 by two similar users, has two
    entries among the candidates and each of the others, rated by user 4
    alone, has three. *)
Lemma crowd_outcome :
  (find_similar_users 1 3 (prepare_rating_matrix crowd)).1 ≡ₚ [2; 3; 4] →
  supporters 1 crowd 2 = 2%nat
  ∧ supporters 1 crowd 3 = 1%nat
  ∧ movieId <$> (recommend_movies 1 3 crowd).1 = [3; 4; 5].
Proof.
  intros Hsu.
  assert (similar_candidates 1 crowd ≡ₚ [2; 2; 3; 4; 5; 3; 4; 5; 3; 4; 5]) as Hc.
  { unfold similar_candidates, collect_candidates. rewrite Hsu. by vm_compute. }
  assert (∀ x, occurrences x (similar_candidates 1 crowd)
               = occurrences x [2; 2; 3; 4; 5; 3; 4; 5; 3; 4; 5]) as Hocc
    by (intros x; by apply occurrences_Permutation).
  set (top := top_movie_ids 3 (similar_candidates 1 crowd)).
  assert (∀ x, x ∈ top → x ∈ [2; 3; 4; 5]) as Hsub.
  { intros x Hx%elem_of_top_movie_ids. rewrite Hc in Hx. set_solver. }
  assert (length top = 3%nat) as Hlen.
  { unfold top. rewrite length_top_movie_ids by lia.
    assert (remove_dups (similar_candidates 1 crowd) ≡ₚ [2; 3; 4; 5]) as ->.
    { apply NoDup_Permutation; [apply NoDup_remove_dups | |].
      - repeat (constructor; [set_solver |]). constructor.
      - intros x. rewrite elem_of_remove_dups, Hc. set_solver. }
    done. }
  assert (∀ x, x ∈ [3; 4; 5] → 2 ∈ top → x ∈ top) as Hup.
  { intros x Hx. apply top_movie_ids_monotone. rewrite !Hocc.
    repeat (apply elem_of_cons in Hx as [-> | Hx]; [by vm_compute |]).
    by apply elem_of_nil in Hx. }
  assert (2 ∉ top) as H2.
  { intros H2.
    assert ([2; 3; 4; 5] ⊆+ top) as Hall.
    { apply NoDup_submseteq.
      - repeat (constructor; [set_solver |]). constructor.
      - intros x Hx. apply elem_of_cons in Hx as [-> | Hx]; [done |]. by apply Hup. }
    apply submseteq_length in Hall. simpl in Hall. lia. }
  assert (top ≡ₚ [3; 4; 5]) as Htop.
  { apply submseteq_length_Permutation; [| simpl; lia].
    apply NoDup_submseteq; [apply NoDup_top_movie_ids |].
    intros x Hx. pose proof (Hsub x Hx) as Hin.
    apply elem_of_cons in Hin as [-> | Hin]; done. }
  split_and!.
  - unfold supporters. rewrite Hsu. by vm_compute.
  - unfold supporters. rewrite Hsu. by vm_compute.
  - rewrite recommend_movies_result.
    destruct (decide _) as [Hs | _]; [by vm_compute in Hs |].
    unfold candidate_pool.
    destruct (similar_candidates 1 crowd) as [| c cs] eqn:E.
    { by apply Permutation_nil_l in Hc. }
    rewrite (list_filter_iff _ (λ m, movieId m ∈ [3; 4; 5])).
    + by vm_compute.
    + intros m. change (movieId m ∈ top ↔ movieId m ∈ [3; 4; 5]).
      by rewrite Htop.
Qed.

End crowd.

(** * Worked instances *)

(** Settles a decidable closed goal by evaluating its decision. *)
Ltac evaluate := apply (bool_decide_unpack _); vm_compute; exact I.

(** The sample sessions leave the sample stores behind. *)
Example crowd_session_rows :
  ratings_data <$> main (B:=reference_backend) crowd_session = Some crowd_rows.
Proof. vm_compute. reflexivity. Qed.

Example rerate_session_rows :
  ratings_data <$> main (B:=reference_backend) rerate_session = Some rerate_rows.
Proof. vm_compute. reflexivity. Qed.

(** C8, the failing input.  In [unchecked_session] user 1 rates in the
    initial collection, asks to rate another movie and types 7: the
    session ends with the row (1, 3, 7) in the store, so the store of a
    reachable state holds a rating outside (0, 5].  This holds for every
    backend. *)
Theorem main_stores_unvalidated_rating (B : Backend) :
  ∃ self, main unchecked_session = Some self
    ∧ ratings_data self =
        [mkRating 1 1 5; mkRating 1 2 4; mkRating 1 4 3; mkRating 1 5 2;
         mkRating 1 3 7]
    ∧ ¬ Forall in_range (ratings_data self).
Proof.
  unfold main, unchecked_session. simpl.
  destruct (recommend_movies 1 3 _) as [recs self1] eqn:E.
  apply (f_equal snd) in E. rewrite recommend_movies_state in E. simpl in E.
  subst self1. simpl. eexists. split; [reflexivity |]. simpl. split; [done |].
  rewrite !Forall_cons. intros (_ & _ & _ & _ & [_ H] & _).
  simpl in H. revert H. by vm_compute.
Qed.

Lemma recommend_movies_excludes_rated_witness :
  mkMovie 3 "Interstellar" "Sci-Fi|Drama"
    ∈ (recommend_movies (B:=reference_backend) 1 3 crowd).1
  ∧ mkRating 1 1 5 ∈ ratings_data crowd
  ∧ rated (mkRating 1 1 5) ≠ movieId (mkMovie 3 "Interstellar" "Sci-Fi|Drama").
Proof.
  assert (mkMovie 3 "Interstellar" "Sci-Fi|Drama"
            ∈ (recommend_movies (B:=reference_backend) 1 3 crowd).1) as Hm
    by evaluate.
  assert (mkRating 1 1 5 ∈ ratings_data crowd) as Hr by left.
  split_and!; [exact Hm | exact Hr |].
  exact (recommend_movies_excludes_rated (HB:=reference_backend_laws)
           1 3 crowd _ _ Hm Hr eq_refl).
Defined.

Lemma find_similar_users_fails_soft_witness :
  (length (ratings_data newcomer) < 5)%nat
  ∧ (find_similar_users (B:=reference_backend) 1 3 newcomer).1 = [].
Proof.
  assert (length (ratings_data newcomer) < 5)%nat as Hlen by (simpl; lia).
  split; [exact Hlen |].
  exact (find_similar_users_fails_soft (B:=reference_backend) 1 3 newcomer
           (or_introl Hlen)).
Defined.

Lemma recommend_movies_no_ratings_witness :
  (∀ r, r ∈ ratings_data crowd → userId r ≠ 9)
  ∧ recommend_movies (B:=reference_backend) 9 3 crowd
    = ([], prepare_rating_matrix (B:=reference_backend) crowd).
Proof.
  assert (∀ r, r ∈ ratings_data crowd → userId r ≠ 9) as Hnone.
  { intros r Hr. apply (Forall_forall (λ r, userId r ≠ 9) crowd_rows); [| exact Hr].
    repeat constructor; simpl; lia. }
  split; [exact Hnone |].
  exact (proj2 (recommend_movies_no_ratings (B:=reference_backend)
                  (λ user_id, find_similar_users (B:=reference_backend) user_id 3)
                  9 3 crowd Hnone)).
Defined.

Lemma find_similar_users_ranking_witness :
  (5 ≤ length (ratings_data crowd))%nat
  ∧ 1 ∈ index (pivot_table (ratings_data crowd))
  ∧ (find_similar_users (B:=reference_backend) 1 3 crowd).1 ≡ₚ [2; 3; 4].
Proof.
  assert (5 ≤ length (ratings_data crowd))%nat as Hlen by (simpl; lia).
  assert (1 ∈ index (pivot_table (ratings_data crowd))) as Hu by evaluate.
  split_and!; [exact Hlen | exact Hu |].
  destruct (find_similar_users_ranking (HB:=reference_backend_laws)
              1 3 crowd Hlen Hu ltac:(lia)) as (_ & _ & _ & _ & _ & ->).
  evaluate.
Defined.

Lemma recommend_movies_fallback_witness :
  similar_candidates (B:=reference_backend) 1 newcomer = []
  ∧ (∃ m, m ∈ movies_data newcomer
        ∧ ∀ r, r ∈ ratings_data newcomer → userId r = 1 → rated r ≠ movieId m)
  ∧ (∀ m, m ∈ (recommend_movies (B:=reference_backend) 1 3 newcomer).1 →
          m ∈ movies_data newcomer
          ∧ ∀ r, r ∈ ratings_data newcomer → userId r = 1 → rated r ≠ movieId m)
  ∧ (mkMovie 1 "Inception" "Action|Sci-Fi"
       ∉ (recommend_movies (B:=reference_backend) 1 3 newcomer).1)
  ∧ (recommend_movies (B:=reference_backend) 1 3 newcomer).1 ≠ [].
Proof.
  assert (similar_candidates (B:=reference_backend) 1 newcomer = []) as Hnone
    by (vm_compute; reflexivity).
  assert (∃ m, m ∈ movies_data newcomer
            ∧ ∀ r, r ∈ ratings_data newcomer → userId r = 1 → rated r ≠ movieId m)
    as Hfree.
  { exists (mkMovie 2 "The Matrix" "Sci-Fi|Action"). split; [right; left |].
    apply (Forall_forall (λ r, userId r = 1 → rated r ≠ 2) (ratings_data newcomer)).
    evaluate. }
  assert (∃ r, r ∈ ratings_data newcomer ∧ userId r = 1) as Hrow
    by (exists (mkRating 1 1 5); split; [left | done]).
  destruct (recommend_movies_fallback (HB:=reference_backend_laws)
              1 3 newcomer Hnone Hfree) as (Hsub & _ & Hne).
  split_and!; [exact Hnone | exact Hfree | exact Hsub | | exact (Hne Hrow ltac:(lia))].
  intros Hin. destruct (Hsub _ Hin) as [_ Hno].
  exact (Hno (mkRating 1 1 5) ltac:(left) eq_refl eq_refl).
Defined.

Lemma recommend_movies_monotone_in_count_witness :
  (occurrences 2 (similar_candidates (B:=reference_backend) 1 crowd)
     < occurrences 3 (similar_candidates (B:=reference_backend) 1 crowd))%nat
  ∧ (2 ∈ top_movie_ids (B:=reference_backend) 3
           (similar_candidates (B:=reference_backend) 1 crowd) →
     3 ∈ top_movie_ids (B:=reference_backend) 3
           (similar_candidates (B:=reference_backend) 1 crowd)).
Proof.
  assert (occurrences 2 (similar_candidates (B:=reference_backend) 1 crowd)
            < occurrences 3 (similar_candidates (B:=reference_backend) 1 crowd))%nat
    as Hlt by (vm_compute; lia).
  split; [exact Hlt |].
  exact (proj1 (recommend_movies_monotone_in_count (HB:=reference_backend_laws)
                  1 3 crowd 3 2 Hlt)).
Defined.

(** C6, the counterexample.  After [crowd_session] movie 2 appears as a
    rating of 5 from two similar users of user 1 (users 2 and 3) and movie
    3 from one (user 4, in three rows); with the default
    [n_recommendations] movie 3 is returned and movie 2 is not.  The
    outcome does not hang on the backend ([crowd_outcome]): with the
    standardised columns the cosines of user 1 to users 1, 2, 3 and 4 are
    1, -0.29, -0.29 and -0.42, so rank 0 is user 1 and the similar users
    are 2, 3 and 4 in either order of the tie. *)
Lemma more_users_fewer_rows :
  supporters (B:=reference_backend) 1 crowd 2 = 2%nat
  ∧ supporters (B:=reference_backend) 1 crowd 3 = 1%nat
  ∧ occurrences 2 (similar_candidates (B:=reference_backend) 1 crowd) = 2%nat
  ∧ occurrences 3 (similar_candidates (B:=reference_backend) 1 crowd) = 3%nat
  ∧ (recommend_movies (B:=reference_backend) 1 3 crowd).1
    = [ mkMovie 3 "Interstellar" "Sci-Fi|Drama";
        mkMovie 4 "Dark Knight" "Action|Drama";
        mkMovie 5 "Pulp Fiction" "Crime|Drama" ]
  ∧ mkMovie 2 "The Matrix" "Sci-Fi|Action" ∈ movies_data crowd
  ∧ mkMovie 2 "The Matrix" "Sci-Fi|Action"
      ∉ (recommend_movies (B:=reference_backend) 1 3 crowd).1.
Proof.
  split_and!; try (vm_compute; reflexivity).
  - evaluate.
  - evaluate.
Qed.

Lemma pivot_table_collapses_to_mean_witness :
  cell_values rerate_rows 1 1 ≠ []
  ∧ matrix_at (pivot_table rerate_rows) 1 1 = Some (Qmean [2; 4]%Q).
Proof.
  assert (cell_values rerate_rows 1 1 ≠ []) as Hne by (vm_compute; discriminate).
  split; [exact Hne |].
  exact (pivot_table_collapses_to_mean rerate_rows 1 1 Hne).
Defined.

(** C7, the counterexample.  After [rerate_session] the store holds the
    rows (1, 1, 2) and (1, 1, 4), in this order; the last value seen for
    the cell is 4 and the cell holds 3. *)
Lemma pivot_table_does_not_keep_last :
  last (cell_values rerate_rows 1 1) = Some 4%Q
  ∧ matrix_at (pivot_table rerate_rows) 1 1 = Some (6 # 2)%Q
  ∧ (6 # 2 == 3)%Q
  ∧ ¬ (6 # 2 == 4)%Q.
Proof.
  split_and!; [by vm_compute | by vm_compute | by vm_compute |].
  intros H. by vm_compute in H.
Qed.

(** * Further properties of the code *)

(** ** The validation loop and the initial collection *)

Lemma parse_int_Some (l : line) (r : Z) : parse_int l = Some r ↔ l = Num r.
Proof. destruct l; simpl; naive_solver. Qed.

Lemma read_rating_Some (input rest : list line) (r : Z) :
  read_rating input = Some (r, rest) ↔
  ∃ skipped, input = skipped ++ Num r :: rest
    ∧ 0 ≤ r ≤ 5
    ∧ Forall (λ l, ¬ accepted l) skipped.
Proof.
  split.
  - revert rest r. induction input as [| l input IH]; intros rest r; [done |].
    simpl. destruct (parse_int l) as [z |] eqn:Ez.
    + destruct (decide (0 ≤ z ≤ 5)) as [Hz | Hz].
      * intros [= -> ->]. exists []. apply parse_int_Some in Ez as ->. done.
      * intros (skipped & -> & Hr & Hs)%IH. exists (l :: skipped).
        split; [done |]. split; [done |]. constructor; [| done].
        intros (z' & Ez' & Hz'). congruence.
    + intros (skipped & -> & Hr & Hs)%IH. exists (l :: skipped).
      split; [done |]. split; [done |]. constructor; [| done].
      intros (z' & Ez' & Hz'). congruence.
  - intros (skipped & -> & Hr & Hs).
    induction Hs as [| l skipped Hl _ IH]; simpl.
    + by destruct (decide _).
    + destruct (parse_int l) as [z |] eqn:Ez; [| done].
      destruct (decide _) as [Hz | _]; [| done].
      exfalso. apply Hl. by exists z.
Qed.

Lemma read_rating_None (input : list line) :
  read_rating input = None ↔ Forall (λ l, ¬ accepted l) input.
Proof.
  induction input as [| l input IH]; simpl; [done |].
  rewrite Forall_cons, <- IH. unfold accepted.
  destruct (parse_int l) as [z |]; [| naive_solver].
  destruct (decide _); naive_solver.
Qed.

(** X1.  The loop of lines 34-48 returns the first line that is an integer
    between 0 and 5 and leaves the lines after it unread; every line
    before it is one that the loop rejects (not an integer, or out of
    range), and the loop is still prompting exactly when no line typed so
    far is accepted. *)
Theorem read_rating_first_accepted (input rest : list line) (r : Z) :
  (read_rating input = Some (r, rest) ↔
     ∃ skipped, input = skipped ++ Num r :: rest
       ∧ 0 ≤ r ≤ 5
       ∧ Forall (λ l, ¬ accepted l) skipped)
  ∧ (read_rating input = None ↔ Forall (λ l, ¬ accepted l) input).
Proof. split; [apply read_rating_Some | apply read_rating_None]. Qed.

Lemma collect_rows_answers (user_id : Z) (movies : list Movie)
    (acc : list Rating) (answers : list Z) (rest : list line) :
  length answers = length movies →
  Forall (λ r, 0 ≤ r ≤ 5) answers →
  collect_rows user_id movies acc ((Num <$> answers) ++ rest)
  = Some (acc ++ answered_rows user_id movies answers, rest).
Proof.
  revert acc answers.
  induction movies as [| movie movies IH]; intros acc [| r answers] Hlen Hall;
    try done.
  - simpl. by rewrite app_nil_r.
  - apply Forall_cons in Hall as [Hr Hall]. simpl.
    destruct (decide (0 ≤ r ≤ 5)); [| done]. simpl.
    rewrite IH; [| simpl in Hlen; lia | done].
    unfold answered_rows. simpl.
    destruct (decide (0 < r)); simpl; [| done]. by rewrite <- app_assoc.
Qed.

(** X2.  When the user answers every prompt of the initial collection
    with an integer between 0 and 5, the collection reads exactly one line
    per movie, returns the rows of the non-zero answers, in catalog order,
    and appends the same rows to the store: an answer of 0 stores no row. *)
Theorem collect_initial_ratings_answers (user_id : Z) (self : MovieRecommenderML)
    (answers : list Z) (rest : list line) :
  length answers = length (movies_data self) →
  Forall (λ r, 0 ≤ r ≤ 5) answers →
  collect_initial_ratings user_id self ((Num <$> answers) ++ rest)
  = Some (answered_rows user_id (movies_data self) answers,
          with_rows self (answered_rows user_id (movies_data self) answers),
          rest).
Proof.
  intros Hlen Hall. unfold collect_initial_ratings.
  by rewrite collect_rows_answers.
Qed.

Lemma collect_rows_new_rows (user_id : Z) (movies : list Movie)
    (acc rows : list Rating) (input rest : list line) :
  collect_rows user_id movies acc input = Some (rows, rest) →
  ∃ new, rows = acc ++ new
    ∧ Forall (λ row, userId row = user_id
                     ∧ ∃ r, 1 ≤ r ≤ 5 ∧ rating row = inject_Z r) new
    ∧ rated <$> new `sublist_of` movieId <$> movies.
Proof.
  revert acc input. induction movies as [| movie movies IH]; intros acc input.
  - simpl. intros [= <- _]. exists []. by rewrite app_nil_r.
  - simpl. destruct (read_rating input) as [[r input'] |] eqn:E; [| done].
    simpl. apply read_rating_range in E.
    intros (new & -> & Hnew & Hsub)%IH.
    destruct (decide (0 < r)).
    + exists (mkRating user_id (movieId movie) (inject_Z r) :: new).
      split; [| split].
      * by rewrite <- app_assoc.
      * constructor; [| done]. simpl. split; [done |]. exists r. split; [lia | done].
      * simpl. by apply sublist_skip.
    + exists new. split; [done |]. split; [done |]. simpl. by apply sublist_cons.
Qed.

(** X3.  Whatever is typed, a finished initial collection only appends:
    the catalog is untouched, the store is the old store followed by
    the returned rows, every new row carries the given user id and an
    integer rating from 1 to 5, and the new rows name catalog movies in
    catalog order, each movie at most once. *)
Theorem collect_initial_ratings_appends (user_id : Z)
    (self self' : MovieRecommenderML) (input rest : list line) (df : list Rating) :
  collect_initial_ratings user_id self input = Some (df, self', rest) →
  self' = with_rows self df
  ∧ Forall (λ row, userId row = user_id
                   ∧ ∃ r, 1 ≤ r ≤ 5 ∧ rating row = inject_Z r) df
  ∧ rated <$> df `sublist_of` movieId <$> movies_data self.
Proof.
  unfold collect_initial_ratings.
  destruct (collect_rows _ _ _ _) as [[rows input'] |] eqn:E; [| done].
  simpl. intros Heq. injection Heq as <- <- _.
  apply collect_rows_new_rows in E as (new & -> & Hnew & Hsub). done.
Qed.

(** ** The rating matrix *)

Lemma StronglySorted_sort_unique (l : list Z) : StronglySorted Z.lt (sort_unique l).
Proof.
  pose proof (NoDup_sort_unique l) as Hnd.
  assert (StronglySorted Z.le (sort_unique l)) as Hs
    by (apply StronglySorted_merge_sort; apply _).
  induction Hs as [| x k Hs IH Hall]; [constructor |].
  apply NoDup_cons in Hnd as [Hx Hnd]. constructor; [by apply IH |].
  rewrite Forall_forall in *. intros y Hy.
  pose proof (Hall y Hy). assert (x ≠ y) by (by intros ->). lia.
Qed.

(** X4.  The axes and the shape of the rating matrix: the row labels are
    the userIds with a stored row and the column labels the movieIds with
    a stored row (not the whole catalog), both in strictly ascending
    order, and the cells form one row per row label with one entry per
    column label. *)
Theorem pivot_table_axes (rows : list Rating) :
  StronglySorted Z.lt (index (pivot_table rows))
  ∧ StronglySorted Z.lt (columns (pivot_table rows))
  ∧ (∀ u, u ∈ index (pivot_table rows) ↔ ∃ r, r ∈ rows ∧ userId r = u)
  ∧ (∀ m, m ∈ columns (pivot_table rows) ↔ ∃ r, r ∈ rows ∧ rated r = m)
  ∧ length (values (pivot_table rows)) = length (index (pivot_table rows))
  ∧ Forall (λ row, length row = length (columns (pivot_table rows)))
           (values (pivot_table rows)).
Proof.
  split_and!.
  - apply StronglySorted_sort_unique.
  - apply StronglySorted_sort_unique.
  - intros u. simpl. rewrite elem_of_sort_unique, list_elem_of_fmap. naive_solver.
  - intros m. simpl. rewrite elem_of_sort_unique, list_elem_of_fmap. naive_solver.
  - simpl. by rewrite length_fmap.
  - simpl. apply Forall_fmap, Forall_forall. intros u _. simpl. by rewrite length_fmap.
Qed.

Lemma loc_None (x : Z) (l : list Z) : loc x l = None ↔ x ∉ l.
Proof.
  unfold loc. rewrite fmap_None. split.
  - intros Hf Hx.
    destruct (list_find_elem_of (λ y, y = x) l x Hx eq_refl) as [p Hp]. congruence.
  - intros Hx. destruct (list_find _ l) as [[i y] |] eqn:E; [| done].
    apply list_find_Some in E as (Hi & -> & _). exfalso. apply Hx.
    by eapply list_elem_of_lookup_2.
Qed.

(** A cell of the rating matrix by its labels. *)
Lemma matrix_at_pivot_table (rows : list Rating) (u m : Z) :
  u ∈ index (pivot_table rows) → m ∈ columns (pivot_table rows) →
  matrix_at (pivot_table rows) u m = Some (pivot_cell rows u m).
Proof.
  intros Hu Hm.
  destruct (loc_Some_elem_of _ _ Hu) as (i & Hi & Hiu).
  destruct (loc_Some_elem_of _ _ Hm) as (j & Hj & Hjm).
  unfold matrix_at. rewrite Hi, Hj. simpl in *.
  rewrite list_lookup_fmap, Hiu. simpl.
  by rewrite list_lookup_fmap, Hjm.
Qed.

(** X5.  [fill_value=0]: for a user with a stored row and a movie with a
    stored row, but no row of that user for that movie, the cell of the
    rating matrix is 0. *)
Theorem pivot_table_fill_value (rows : list Rating) (u m : Z) :
  (∃ r, r ∈ rows ∧ userId r = u) →
  (∃ r, r ∈ rows ∧ rated r = m) →
  (∀ r, r ∈ rows → userId r = u → rated r ≠ m) →
  matrix_at (pivot_table rows) u m = Some 0%Q.
Proof.
  intros Hu Hm Hnone.
  rewrite matrix_at_pivot_table.
  - unfold pivot_cell.
    destruct (cell_values rows u m) as [| q qs] eqn:E; [done |].
    destruct (cell_values_elem_of rows u m) as (r & Hr & Hru & Hrm);
      [by rewrite E |].
    by destruct (Hnone r Hr Hru).
  - by apply elem_of_index_pivot_table.
  - simpl. rewrite elem_of_sort_unique, list_elem_of_fmap. naive_solver.
Qed.

(** X6.  A label that no stored row carries has no cell: looking up a
    cell fails exactly when the user has no stored row or the movie has
    none. *)
Theorem matrix_at_missing_label (rows : list Rating) (u m : Z) :
  matrix_at (pivot_table rows) u m = None ↔
  (∀ r, r ∈ rows → userId r ≠ u) ∨ (∀ r, r ∈ rows → rated r ≠ m).
Proof.
  assert (u ∈ index (pivot_table rows) ↔ ∃ r, r ∈ rows ∧ userId r = u) as Hu
    by apply elem_of_index_pivot_table.
  assert (m ∈ columns (pivot_table rows) ↔ ∃ r, r ∈ rows ∧ rated r = m) as Hm.
  { simpl. rewrite elem_of_sort_unique, list_elem_of_fmap. naive_solver. }
  destruct (decide (u ∈ index (pivot_table rows))) as [Hiu | Hiu].
  - destruct (decide (m ∈ columns (pivot_table rows))) as [Him | Him].
    + rewrite matrix_at_pivot_table by done. split; [done |].
      apply Hu in Hiu as (r & ? & ?). apply Hm in Him as (r' & ? & ?).
      naive_solver.
    + split; [intros _; right; intros r Hr Hrm; apply Him, Hm; eauto |].
      intros _. unfold matrix_at.
      apply loc_None in Him. rewrite Him.
      by destruct (loc u (index (pivot_table rows))).
  - split; [intros _; left; intros r Hr Hru; apply Hiu, Hu; eauto |].
    intros _. unfold matrix_at. apply loc_None in Hiu. by rewrite Hiu.
Qed.

(** ** The normalized matrix and the similar users *)

Lemma py_slice_sublist {A} (start stop : Z) (l : list A) :
  py_slice start stop l `sublist_of` l.
Proof.
  unfold py_slice. etrans; [apply sublist_take | apply sublist_drop].
Qed.

Lemma py_slice_1_length {A} (stop : Z) (l : list A) :
  (length (py_slice 1 stop l) ≤ length l - 1)%nat.
Proof.
  unfold py_slice. rewrite length_take, length_drop.
  assert (slice_bound (length l) 1 = (1 `min` length l)%nat) as ->.
  { unfold slice_bound. destruct (decide (1 < 0)); lia. }
  lia.
Qed.

Lemma NoDup_lookup_total_fmap (idx : list Z) (l : list nat) :
  NoDup idx → NoDup l → Forall (λ i, (i < length idx)%nat) l →
  NoDup ((λ i, idx !!! i) <$> l).
Proof.
  intros Hidx Hl Hin. apply NoDup_fmap_2_strong; [| done].
  rewrite Forall_forall in Hin. intros i j Hi Hj Heq.
  apply Hin in Hi. apply Hin in Hj.
  apply (NoDup_lookup idx i j (idx !!! i)); [done | |].
  - by apply list_lookup_lookup_total_lt.
  - rewrite Heq. by apply list_lookup_lookup_total_lt.
Qed.

Section similar.
Context {B : Backend} {HB : BackendLaws B}.

Lemma normalized_matrix_shape (rows : list Rating) :
  length <$> fit_transform (values (pivot_table rows))
  = replicate (length (index (pivot_table rows)))
              (length (columns (pivot_table rows))).
Proof.
  rewrite fit_transform_shape. simpl.
  generalize (sort_unique (rated <$> rows)). intros cols.
  generalize (sort_unique (userId <$> rows)). intros idx.
  induction idx as [| u us IH]; [done |].
  rewrite !fmap_cons, IH, length_fmap. done.
Qed.

(** X7.  The normalized matrix has the shape of the rating matrix, one
    row per user and one entry per rated movie, and it has no cell exactly
    when the store is empty: past the five-row gate of line 80 the size
    test of line 87 never fires. *)
Theorem prepare_rating_matrix_normalized (self : MovieRecommenderML) :
  length <$> normalized_matrix (prepare_rating_matrix self)
    = length <$> values (rating_matrix (prepare_rating_matrix self))
  ∧ (array_size (normalized_matrix (prepare_rating_matrix self)) = 0%nat
     ↔ ratings_data self = []).
Proof.
  unfold prepare_rating_matrix. simpl normalized_matrix. simpl rating_matrix.
  destruct (matrix_empty (pivot_table (ratings_data self))) eqn:E.
  - apply matrix_empty_pivot_table in E. rewrite E. done.
  - split; [apply fit_transform_shape |].
    assert (ratings_data self ≠ []) as Hne.
    { intros Hnil. apply matrix_empty_pivot_table in Hnil. congruence. }
    split; [| done]. unfold array_size. rewrite fit_transform_shape.
    intros Hz. by apply array_size_pivot_table in Hz.
Qed.

Lemma similarity_ranking_perm (u : Z) (rows : list Rating) :
  similarity_ranking u rows ≡ₚ seq 0 (length (index (pivot_table rows))).
Proof.
  unfold similarity_ranking.
  rewrite reverse_Permutation, argsort_perm, cosine_similarity_length.
  rewrite <- (length_fmap length), normalized_matrix_shape.
  by rewrite length_replicate.
Qed.

Lemma similarity_ranking_lt (u : Z) (rows : list Rating) :
  Forall (λ i, (i < length (index (pivot_table rows)))%nat)
         (similarity_ranking u rows).
Proof.
  rewrite similarity_ranking_perm. apply Forall_forall.
  intros i Hi%elem_of_seq. lia.
Qed.

(** The result of [find_similar_users] behind its two gates. *)
Lemma find_similar_users_value (u top_n : Z) (self : MovieRecommenderML) :
  (5 ≤ length (ratings_data self))%nat →
  u ∈ index (pivot_table (ratings_data self)) →
  (find_similar_users u top_n self).1
  = (λ i, index (pivot_table (ratings_data self)) !!! i)
      <$> py_slice 1 (top_n + 1) (similarity_ranking u (ratings_data self)).
Proof.
  intros Hlen Hu. unfold find_similar_users.
  destruct (decide _) as [| _]; [lia |].
  destruct (decide _) as [[Hsz | Hnot] | _].
  - apply prepare_rating_matrix_normalized in Hsz.
    rewrite Hsz in Hlen. simpl in Hlen. lia.
  - done.
  - unfold prepare_rating_matrix, similarity_ranking. simpl.
    destruct (matrix_empty (pivot_table (ratings_data self))) eqn:E; [| done].
    apply matrix_empty_pivot_table in E. rewrite E in Hlen. simpl in Hlen. lia.
Qed.

(** Outside the gates the result is empty. *)
Lemma find_similar_users_gated (u top_n : Z) (self : MovieRecommenderML) :
  ¬ ((5 ≤ length (ratings_data self))%nat
     ∧ u ∈ index (pivot_table (ratings_data self))) →
  (find_similar_users u top_n self).1 = [].
Proof.
  intros Hg. unfold find_similar_users.
  destruct (decide _) as [| Hlen]; [done |].
  destruct (decide _) as [| Hgate]; [done |].
  exfalso. apply Hg. split; [lia |].
  destruct (decide (u ∈ index (pivot_table (ratings_data self)))); [done |].
  exfalso. apply Hgate. by right.
Qed.

Lemma find_similar_users_length_le (u top_n : Z) (self : MovieRecommenderML) :
  (length (find_similar_users u top_n self).1
   ≤ length (index (pivot_table (ratings_data self))) - 1)%nat.
Proof.
  destruct (decide ((5 ≤ length (ratings_data self))%nat
                    ∧ u ∈ index (pivot_table (ratings_data self)))) as [[H5 Hu] | Hg].
  - rewrite find_similar_users_value by done. rewrite length_fmap.
    etrans; [apply py_slice_1_length |].
    by rewrite similarity_ranking_perm, length_seq.
  - rewrite find_similar_users_gated by done. simpl. lia.
Qed.

(** X8.  The similar users are users of the store, none twice, never more
    than the users of the store less one, and never more than [top_n]
    when [top_n] is not negative. *)
Theorem find_similar_users_users (u top_n : Z) (self : MovieRecommenderML) :
  NoDup (find_similar_users u top_n self).1
  ∧ (∀ v, v ∈ (find_similar_users u top_n self).1 →
          ∃ r, r ∈ ratings_data self ∧ userId r = v)
  ∧ (length (find_similar_users u top_n self).1
     ≤ length (index (pivot_table (ratings_data self))) - 1)%nat
  ∧ (0 ≤ top_n →
     (length (find_similar_users u top_n self).1 ≤ Z.to_nat top_n)%nat).
Proof.
  split_and!; [| | apply find_similar_users_length_le |].
  all: destruct (decide ((5 ≤ length (ratings_data self))%nat
         ∧ u ∈ index (pivot_table (ratings_data self)))) as [[H5 Hu] | Hg];
    [rewrite find_similar_users_value by done
    | rewrite find_similar_users_gated by done].
  - apply NoDup_lookup_total_fmap.
    + apply NoDup_sort_unique.
    + eapply sublist_NoDup; [| apply py_slice_sublist].
      rewrite similarity_ranking_perm. apply NoDup_seq.
    + pose proof (similarity_ranking_lt u (ratings_data self)) as Hlt.
      rewrite Forall_forall in *. intros i Hi. apply Hlt.
      by eapply elem_of_sublist; [| apply py_slice_sublist].
  - constructor.
  - intros v (i & -> & Hi)%list_elem_of_fmap.
    apply elem_of_index_pivot_table.
    apply list_elem_of_lookup_total_2.
    pose proof (similarity_ranking_lt u (ratings_data self)) as Hlt.
    rewrite Forall_forall in Hlt. apply Hlt.
    by eapply elem_of_sublist; [| apply py_slice_sublist].
  - by intros v ?%elem_of_nil.
  - intros Hn. rewrite length_fmap, py_slice_from_1 by done.
    rewrite length_take. lia.
  - simpl. lia.
Qed.

(** X9.  The target itself is among its similar users exactly when the
    ranking places it at a rank from 1 to [top_n]: line 98 drops rank 0,
    whoever holds it, and nothing else keeps the target out. *)
Theorem find_similar_users_returns_target (u top_n : Z) (self : MovieRecommenderML) :
  (5 ≤ length (ratings_data self))%nat →
  u ∈ index (pivot_table (ratings_data self)) →
  0 ≤ top_n →
  u ∈ (find_similar_users u top_n self).1 ↔
  ∃ k, (1 ≤ k ≤ Z.to_nat top_n)%nat
    ∧ similarity_ranking u (ratings_data self) !! k
      = Some (get_loc u (index (pivot_table (ratings_data self)))).
Proof.
  intros H5 Hu Hn. rewrite find_similar_users_value, py_slice_from_1 by done.
  pose proof (loc_elem_of _ _ Hu) as Hloc.
  pose proof (similarity_ranking_lt u (ratings_data self)) as Hlt.
  rewrite Forall_forall in Hlt.
  rewrite list_elem_of_fmap. split.
  - intros (i & Hui & Hi). apply elem_of_take in Hi as (j & Hj & Hjn).
    rewrite lookup_drop in Hj. exists (1 + j)%nat. split; [lia |].
    rewrite Hj. f_equal.
    apply (NoDup_lookup (index (pivot_table (ratings_data self))) _ _ u);
      [apply NoDup_sort_unique | | done].
    rewrite Hui. apply list_lookup_lookup_total_lt, Hlt.
    by eapply list_elem_of_lookup_2.
  - intros (k & Hk & Hr).
    exists (get_loc u (index (pivot_table (ratings_data self)))). split.
    + symmetry. by apply list_lookup_total_correct.
    + apply elem_of_take. exists (k - 1)%nat. split; [| lia].
      rewrite lookup_drop. by replace (1 + (k - 1))%nat with k by lia.
Qed.

(** X10.  A user who is alone in the store has no similar users, however
    many rows the store holds and whatever [top_n] is. *)
Theorem find_similar_users_sole_user (u top_n : Z) (self : MovieRecommenderML) :
  (∀ r, r ∈ ratings_data self → userId r = u) →
  (find_similar_users u top_n self).1 = [].
Proof.
  intros Hall.
  pose proof (find_similar_users_length_le u top_n self) as Hle.
  assert (length (index (pivot_table (ratings_data self))) ≤ 1)%nat as H1.
  { pose proof (NoDup_sort_unique (userId <$> ratings_data self)) as Hnd.
    assert (∀ v, v ∈ sort_unique (userId <$> ratings_data self) → v = u) as Hv.
    { intros v (r & -> & Hr)%elem_of_sort_unique%list_elem_of_fmap. by apply Hall. }
    simpl. destruct (sort_unique _) as [| a [| b l]]; simpl; [lia | lia |].
    exfalso. apply NoDup_cons in Hnd as [Ha _]. apply Ha.
    rewrite (Hv a), (Hv b); [left | set_solver | set_solver]. }
  apply nil_length_inv. lia.
Qed.

(** X11.  The slice of line 98 for a [top_n] that is not positive: 0 and
    -1 give the empty list, and a [top_n] of -2 or less does not: it
    gives the ranking without rank 0 and without its last [- top_n - 1]
    entries. *)
Theorem find_similar_users_nonpositive_top_n
    (u top_n : Z) (self : MovieRecommenderML) :
  (5 ≤ length (ratings_data self))%nat →
  u ∈ index (pivot_table (ratings_data self)) →
  (top_n = 0 ∨ top_n = -1 → (find_similar_users u top_n self).1 = [])
  ∧ (top_n ≤ -2 →
     (find_similar_users u top_n self).1
     = (λ i, index (pivot_table (ratings_data self)) !!! i)
         <$> take (length (index (pivot_table (ratings_data self)))
                   - Z.to_nat (- top_n))
                  (drop 1 (similarity_ranking u (ratings_data self)))).
Proof.
  intros H5 Hu. rewrite find_similar_users_value by done.
  pose proof (similarity_ranking_perm u (ratings_data self)) as Hp.
  apply Permutation_length in Hp. rewrite length_seq in Hp.
  assert (1 ≤ length (index (pivot_table (ratings_data self))))%nat as Hpos.
  { destruct (index (pivot_table (ratings_data self))); [| simpl; lia].
    by apply elem_of_nil in Hu. }
  unfold py_slice, slice_bound. rewrite Hp.
  destruct (decide (1 < 0)) as [| _]; [lia |].
  replace (Z.to_nat (1 `min` Z.of_nat (length (index (pivot_table (ratings_data self))))))
    with 1%nat by lia.
  split.
  - intros Htn. destruct (decide (top_n + 1 < 0)); [lia |].
    replace (_ - 1)%nat with 0%nat by lia. done.
  - intros Htn. destruct (decide (top_n + 1 < 0)); [| lia].
    do 2 f_equal. lia.
Qed.

End similar.

(** ** The recommendations *)

Section recommendations.
Context {B : Backend} {HB : BackendLaws B}.

Lemma recommend_movies_sublist (u n : Z) (self : MovieRecommenderML) :
  (recommend_movies u n self).1 `sublist_of` movies_data self.
Proof.
  rewrite recommend_movies_result.
  destruct (decide _); [apply sublist_nil_l |].
  destruct (candidate_pool u self); [apply sublist_nil_l | apply sublist_filter].
Qed.

(** No candidate is a movie of the target's rows. *)
Lemma candidate_pool_unseen (u : Z) (self : MovieRecommenderML) (x : Z) :
  x ∈ candidate_pool u self → x ∉ user_rated_movies (ratings_data self) u.
Proof.
  unfold candidate_pool.
  destruct (similar_candidates u self) as [| c cs] eqn:E.
  - rewrite list_of_set_perm, elem_of_elements. unfold unseen_movies. set_solver.
  - rewrite <- E. unfold similar_candidates, collect_candidates.
    intros (s & Hin & _)%list_elem_of_bind.
    apply list_elem_of_fmap in Hin as (r & -> & Hr).
    unfold similar_user_ratings in Hr.
    by apply list_elem_of_filter in Hr as [(_ & _ & Hnot) _].
Qed.

(** X12.  With a catalog whose movieIds are distinct, as the one of
    [__init__] is, no movie is returned twice and, for an
    [n_recommendations] that is not negative, at most [n_recommendations]
    records are returned; in particular none for 0. *)
Theorem recommend_movies_at_most_n (u n : Z) (self : MovieRecommenderML) :
  NoDup (movieId <$> movies_data self) →
  0 ≤ n →
  NoDup (movieId <$> (recommend_movies u n self).1)
  ∧ (length (recommend_movies u n self).1 ≤ Z.to_nat n)%nat.
Proof.
  intros Hcat Hn.
  assert (NoDup (movieId <$> (recommend_movies u n self).1)) as Hnd.
  { eapply sublist_NoDup; [exact Hcat |].
    apply fmap_sublist, recommend_movies_sublist. }
  split; [done |].
  rewrite <- (length_fmap movieId).
  transitivity (length (top_movie_ids n (candidate_pool u self))).
  - apply submseteq_length, NoDup_submseteq; [done |].
    intros x (m & -> & Hm)%list_elem_of_fmap.
    by apply elem_of_recommend_movies in Hm as (_ & Htop & _).
  - rewrite length_top_movie_ids by done. lia.
Qed.

(** X13.  A target user whose rows cover every movie of the catalog gets
    the empty result, whatever the other users have rated, movies outside
    the catalog included. *)
Theorem recommend_movies_all_rated (u n : Z) (self : MovieRecommenderML) :
  (∀ m, m ∈ movies_data self →
        ∃ r, r ∈ ratings_data self ∧ userId r = u ∧ rated r = movieId m) →
  (recommend_movies u n self).1 = [].
Proof.
  intros Hall.
  destruct (recommend_movies u n self).1 as [| m ms] eqn:E; [done |].
  assert (m ∈ (recommend_movies u n self).1) as Hm by (rewrite E; left).
  apply elem_of_recommend_movies in Hm as (Hcat & Htop & _).
  apply elem_of_top_movie_ids, candidate_pool_unseen in Htop.
  exfalso. apply Htop, user_rated_movies_spec. by apply Hall.
Qed.

(** X14.  When the similar users yield a candidate, every returned movie
    was rated 4 or more, in some stored row, by one of the similar users
    (and the fallback to the unseen catalog is not taken). *)
Theorem recommend_movies_backed_by_rating
    (u n : Z) (self : MovieRecommenderML) (m : Movie) :
  similar_candidates u self ≠ [] →
  m ∈ (recommend_movies u n self).1 →
  ∃ s r, s ∈ (find_similar_users u 3 (prepare_rating_matrix self)).1
    ∧ r ∈ ratings_data self
    ∧ userId r = s ∧ rated r = movieId m ∧ (4 <= rating r)%Q.
Proof.
  intros Hne (_ & Htop & _)%elem_of_recommend_movies.
  apply elem_of_top_movie_ids in Htop. unfold candidate_pool in Htop.
  destruct (similar_candidates u self) as [| c cs] eqn:E; [done |].
  rewrite <- E in Htop. unfold similar_candidates, collect_candidates in Htop.
  apply list_elem_of_bind in Htop as (s & Hin & Hs).
  apply list_elem_of_fmap in Hin as (r & Hrm & Hr).
  unfold similar_user_ratings in Hr.
  apply list_elem_of_filter in Hr as [(Hu & H4 & _) Hr].
  exists s, r. done.
Qed.

End recommendations.

Section stale.
Context {B : Backend}.

(** X15.  Nothing is cached from one call to the next: the similar users
    and the recommendations are determined by the catalog and the store
    alone, whatever the derived attributes hold when the method is
    called. *)
Theorem recommend_movies_from_store
    (u n top_n : Z) (self self' : MovieRecommenderML) :
  movies_data self = movies_data self' →
  ratings_data self = ratings_data self' →
  recommend_movies u n self = recommend_movies u n self'
  ∧ (find_similar_users u top_n self).1 = (find_similar_users u top_n self').1.
Proof.
  intros Hm Hr.
  assert (prepare_rating_matrix self = prepare_rating_matrix self') as Hp.
  { unfold prepare_rating_matrix. by rewrite Hm, Hr. }
  split.
  - unfold recommend_movies, recommend_movies_via. by rewrite Hp.
  - unfold find_similar_users. rewrite Hr, Hp.
    by destruct (decide _).
Qed.

End stale.

(** ** One pass of the loop of [main], and a session *)

Section passes.
Context {B : Backend}.

Lemma main_body_added (self self' : MovieRecommenderML)
    (input rest : list line) (again : bool) :
  main_body self input = Some (self', rest, again) →
  movies_data self' = movies_data self
  ∧ ∃ added, ratings_data self' = ratings_data self ++ added
      ∧ Forall (λ row, head input = Some (Num (userId row))) added.
Proof.
  destruct input as [| l input]; [done |]. simpl.
  destruct (parse_int l) as [user_id |] eqn:El.
  2: { intros [= <- _ _]. split; [done |]. exists []. by rewrite app_nil_r. }
  apply parse_int_Some in El as ->.
  unfold collect_initial_ratings.
  destruct (collect_rows _ _ _ _) as [[rows input1] |] eqn:E; [| done].
  apply collect_rows_new_rows in E as (new & -> & Hnew & _). simpl.
  destruct (recommend_movies _ _ _) as [recs self1] eqn:Er.
  apply (f_equal snd) in Er. rewrite recommend_movies_state in Er. simpl in Er.
  subst self1.
  assert (Forall (λ row, Some (Num user_id) = Some (Num (userId row))) new) as Hids.
  { eapply Forall_impl; [exact Hnew |]. by intros row [-> _]. }
  destruct input1 as [| a input2]; [done |].
  unfold ask_continue. destruct (is_yes a).
  - destruct input2 as [| l1 input3]; [done |].
    destruct (parse_int l1) as [movie_id |].
    2: { intros [= <- _ _]. split; [done |]. by exists new. }
    destruct input3 as [| l2 input4]; [done |].
    destruct (parse_float l2) as [q |].
    2: { intros [= <- _ _]. split; [done |]. by exists new. }
    destruct input4 as [| c input5]; [done |].
    intros [= <- _ _]. split; [done |].
    exists (new ++ [mkRating user_id movie_id q]). simpl.
    split; [by rewrite app_assoc |].
    apply Forall_app. split; [done |]. by constructor.
  - destruct input2 as [| c input3]; [done |].
    intros [= <- _ _]. split; [done |]. by exists new.
Qed.

(** X16.  One pass of the loop never touches the catalog and only appends
    to the store, and every row it appends carries the user id typed at
    the start of that pass; a pass that starts with a line that is no
    integer appends nothing. *)
Theorem main_body_appends (self self' : MovieRecommenderML)
    (input rest : list line) (again : bool) :
  main_body self input = Some (self', rest, again) →
  movies_data self' = movies_data self
  ∧ ∃ added, ratings_data self' = ratings_data self ++ added
      ∧ Forall (λ row, head input = Some (Num (userId row))) added.
Proof. apply main_body_added. Qed.

(** X17.  Over a whole session the catalog is never changed and the
    store is append-only: the store at any point of the loop is a prefix
    of the store when the session ends. *)
Theorem main_loop_append_only (fuel : nat) (self self' : MovieRecommenderML)
    (input : list line) :
  main_loop fuel self input = Some self' →
  movies_data self' = movies_data self
  ∧ ratings_data self `prefix_of` ratings_data self'.
Proof.
  revert self input. induction fuel as [| fuel IH]; intros self input; [done |].
  simpl. destruct (main_body self input) as [[[self1 rest] again] |] eqn:E; [| done].
  simpl. apply main_body_added in E as (Hm & added & Hr & _).
  destruct again.
  - intros (Hm' & Hp)%IH. split; [congruence |].
    etrans; [| exact Hp]. rewrite Hr. by apply prefix_app_r.
  - intros [= <-]. split; [done |]. rewrite Hr. by apply prefix_app_r.
Qed.

(** The rest of a pass once the user has answered the five rating prompts
    with integers between 0 and 5. *)
Lemma main_body_answers (self : MovieRecommenderML) (u : Z)
    (answers : list Z) (tail : list line) :
  length answers = length (movies_data self) →
  Forall (λ r, 0 ≤ r ≤ 5) answers →
  main_body self (Num u :: (Num <$> answers) ++ tail) =
    let self1 := prepare_rating_matrix
                   (with_rows self (answered_rows u (movies_data self) answers)) in
    match tail with
    | [] => None
    | rate_movie :: input =>
      if is_yes rate_movie then
        match input with
        | [] => None
        | l :: input =>
          match parse_int l with
          | None => Some (self1, input, true)
          | Some movie_id =>
            match input with
            | [] => None
            | l :: input =>
              match parse_float l with
              | None => Some (self1, input, true)
              | Some r => ask_continue (add_rating u movie_id r self1) input
              end
            end
          end
        end
      else ask_continue self1 input
    end.
Proof.
  intros Hlen Hall. simpl. unfold collect_initial_ratings.
  rewrite collect_rows_answers by done. simpl.
  destruct (recommend_movies _ _ _) as [recs self1] eqn:Er.
  apply (f_equal snd) in Er. rewrite recommend_movies_state in Er. simpl in Er.
  by subst self1.
Qed.

(** X18.  A conversion that fails ends the pass and the loop goes on: a
    user id that is no integer leaves the object as it is; a movie id
    that is no integer, or a rating that is no number, on the ad-hoc path
    appends nothing, skips the prompt to continue, and keeps the rows of
    the initial collection of that pass in the store. *)
Theorem main_body_conversion_error (self : MovieRecommenderML) (u movie_id : Z)
    (answers : list Z) (l : line) (rest : list line) :
  length answers = length (movies_data self) →
  Forall (λ r, 0 ≤ r ≤ 5) answers →
  let collected :=
    prepare_rating_matrix
      (with_rows self (answered_rows u (movies_data self) answers)) in
  (parse_int l = None → main_body self (l :: rest) = Some (self, rest, true))
  ∧ (parse_int l = None →
     main_body self (Num u :: (Num <$> answers) ++ Word "yes" :: l :: rest)
     = Some (collected, rest, true))
  ∧ (parse_float l = None →
     main_body self
       (Num u :: (Num <$> answers) ++ Word "yes" :: Num movie_id :: l :: rest)
     = Some (collected, rest, true)).
Proof.
  intros Hlen Hall collected. split_and!.
  - intros Hl. simpl. by rewrite Hl.
  - intros Hl. rewrite main_body_answers by done. simpl. by rewrite Hl.
  - intros Hl. rewrite main_body_answers by done. simpl. by rewrite Hl.
Qed.

(** X19.  The ad-hoc path appends exactly one row, with the movie id and
    the rating as typed: the movie id is not checked against the catalog
    and the rating is not checked against any range.  The store after
    the pass is the old store, the rows of the initial collection, and
    that row. *)
Theorem main_body_adhoc_rating (self : MovieRecommenderML) (u movie_id : Z)
    (answers : list Z) (l c : line) (q : Q) (rest : list line) :
  length answers = length (movies_data self) →
  Forall (λ r, 0 ≤ r ≤ 5) answers →
  parse_float l = Some q →
  ∃ self',
    main_body self
      (Num u :: (Num <$> answers) ++ Word "yes" :: Num movie_id :: l :: c :: rest)
    = Some (self', rest, is_yes c)
    ∧ ratings_data self'
      = ratings_data self ++ answered_rows u (movies_data self) answers
          ++ [mkRating u movie_id q].
Proof.
  intros Hlen Hall Hl. rewrite main_body_answers by done. simpl. rewrite Hl.
  eexists. split; [reflexivity |]. simpl. by rewrite app_assoc.
Qed.

End passes.

(** ** More on the matrix, the similar users and the selection *)

(** X20.  A cell for which the store holds exactly one row holds that
    row's rating. *)
Theorem pivot_table_single_rating (rows : list Rating) (u m : Z) (q : Q) :
  cell_values rows u m = [q] →
  ∃ v, matrix_at (pivot_table rows) u m = Some v ∧ (v == q)%Q.
Proof.
  intros Hq.
  destruct (cell_values_elem_of rows u m) as (r & Hr & Hru & Hrm);
    [by rewrite Hq |].
  exists (pivot_cell rows u m). split.
  - apply matrix_at_pivot_table.
    + apply elem_of_index_pivot_table. eauto.
    + simpl. rewrite elem_of_sort_unique, list_elem_of_fmap. eauto.
  - unfold pivot_cell. rewrite Hq. unfold Qmean, Qsum. simpl. field.
Qed.

Section more.
Context {B : Backend}.

(** X21.  [find_similar_users] leaves the Rating Store and the Catalog as
    it found them, for every argument; behind the five-row gate it leaves
    the whole object untouched, and otherwise it leaves the derived
    attributes as [prepare_rating_matrix] builds them. *)
Theorem find_similar_users_reads_only (u top_n : Z) (self : MovieRecommenderML) :
  ratings_data (find_similar_users u top_n self).2 = ratings_data self
  ∧ movies_data (find_similar_users u top_n self).2 = movies_data self
  ∧ ((length (ratings_data self) < 5)%nat →
     (find_similar_users u top_n self).2 = self)
  ∧ ((5 ≤ length (ratings_data self))%nat →
     (find_similar_users u top_n self).2 = prepare_rating_matrix self).
Proof.
  rewrite find_similar_users_state.
  destruct (decide _); split_and!; try done; lia.
Qed.

Context {HB : BackendLaws B}.

(** X22.  Behind its gates [find_similar_users] returns exactly [top_n]
    users when the store holds more than [top_n] users, and all users but
    one otherwise. *)
Theorem find_similar_users_count (u top_n : Z) (self : MovieRecommenderML) :
  (5 ≤ length (ratings_data self))%nat →
  u ∈ index (pivot_table (ratings_data self)) →
  0 ≤ top_n →
  length (find_similar_users u top_n self).1
  = (Z.to_nat top_n `min` (length (index (pivot_table (ratings_data self))) - 1))%nat.
Proof.
  intros H5 Hu Hn.
  rewrite find_similar_users_value, py_slice_from_1 by done.
  rewrite length_fmap, length_take, length_drop.
  by rewrite similarity_ranking_perm, length_seq.
Qed.

(** X23.  When [n_recommendations] is at least the number of distinct
    candidates, nothing is cut: for a target with a stored row, every
    catalog movie among the candidates is returned. *)
Theorem recommend_movies_all_candidates
    (u n : Z) (self : MovieRecommenderML) (m : Movie) :
  (∃ r, r ∈ ratings_data self ∧ userId r = u) →
  Z.of_nat (length (remove_dups (candidate_pool u self))) ≤ n →
  m ∈ movies_data self →
  movieId m ∈ candidate_pool u self →
  m ∈ (recommend_movies u n self).1.
Proof.
  intros (r & Hr & Hru) Hn Hm Hin.
  rewrite recommend_movies_result.
  destruct (decide _) as [Hz | _].
  { apply size_empty_inv in Hz.
    assert (rated r ∈ user_rated_movies (ratings_data self) u) as Hx
      by (apply user_rated_movies_spec; eauto).
    set_solver. }
  destruct (candidate_pool u self) as [| c cs] eqn:E;
    [by apply elem_of_nil in Hin |].
  apply list_elem_of_filter. split; [| done].
  unfold top_movie_ids, head_n. destruct (decide _); [| lia].
  rewrite take_ge.
  - rewrite value_counts_fst_perm. by apply elem_of_remove_dups.
  - rewrite <- (length_fmap fst), value_counts_fst_perm. lia.
Qed.

End more.

(** ** Instances of the further properties *)

Lemma collect_initial_ratings_answers_witness :
  length [5; 4; 0; 3; 2] = length (movies_data init)
  ∧ collect_initial_ratings 1 init ((Num <$> [5; 4; 0; 3; 2]) ++ [Word "no"])
    = Some (answered_rows 1 (movies_data init) [5; 4; 0; 3; 2],
            with_rows init (answered_rows 1 (movies_data init) [5; 4; 0; 3; 2]),
            [Word "no"]).
Proof.
  split; [reflexivity |].
  apply collect_initial_ratings_answers; [reflexivity |].
  repeat constructor; lia.
Defined.

Lemma collect_initial_ratings_appends_witness :
  ∃ df self' rest,
    collect_initial_ratings 1 init
      [Num 5; Word "five"; Num 9; Num 4; Num 0; Num 3; Num 2; Word "no"]
    = Some (df, self', rest)
    ∧ self' = with_rows init df
    ∧ rated <$> df `sublist_of` movieId <$> movies_data init.
Proof.
  destruct (collect_initial_ratings 1 init
              [Num 5; Word "five"; Num 9; Num 4; Num 0; Num 3; Num 2; Word "no"])
    as [[[df self'] rest] |] eqn:E; [| by vm_compute in E].
  exists df, self', rest. split; [reflexivity |].
  destruct (collect_initial_ratings_appends _ _ _ _ _ _ E) as (H1 & _ & H3).
  by split.
Defined.

Lemma pivot_table_fill_value_witness :
  (∃ r, r ∈ crowd_rows ∧ userId r = 1)
  ∧ (∃ r, r ∈ crowd_rows ∧ rated r = 2)
  ∧ matrix_at (pivot_table crowd_rows) 1 2 = Some 0%Q.
Proof.
  assert (∃ r, r ∈ crowd_rows ∧ userId r = 1) as Hu
    by (exists (mkRating 1 1 5); split; [left | done]).
  assert (∃ r, r ∈ crowd_rows ∧ rated r = 2) as Hm
    by (exists (mkRating 2 2 5); split; [right; left | done]).
  assert (∀ r, r ∈ crowd_rows → userId r = 1 → rated r ≠ 2) as Hnone.
  { apply (Forall_forall (λ r, userId r = 1 → rated r ≠ 2) crowd_rows). evaluate. }
  split_and!; [exact Hu | exact Hm |].
  exact (pivot_table_fill_value crowd_rows 1 2 Hu Hm Hnone).
Defined.

Lemma prepare_rating_matrix_normalized_witness :
  length <$> normalized_matrix (prepare_rating_matrix (B:=reference_backend) crowd)
    = [5; 5; 5; 5]%nat
  ∧ array_size (normalized_matrix (prepare_rating_matrix (B:=reference_backend) init))
    = 0%nat.
Proof.
  split.
  - rewrite (proj1 (prepare_rating_matrix_normalized
                      (HB:=reference_backend_laws) crowd)).
    by vm_compute.
  - by apply (prepare_rating_matrix_normalized (HB:=reference_backend_laws) init).
Defined.

Lemma find_similar_users_users_witness :
  NoDup (find_similar_users (B:=reference_backend) 1 3 crowd).1
  ∧ (length (find_similar_users (B:=reference_backend) 1 3 crowd).1 ≤ 3)%nat.
Proof.
  destruct (find_similar_users_users (HB:=reference_backend_laws) 1 3 crowd)
    as (Hnd & _ & _ & Hlen).
  split; [exact Hnd | exact (Hlen ltac:(lia))].
Defined.

Lemma find_similar_users_returns_target_witness :
  (5 ≤ length (ratings_data twins))%nat
  ∧ 1 ∈ index (pivot_table (ratings_data twins))
  ∧ similarity_ranking (B:=reference_backend) 1 (ratings_data twins) !! 1%nat
    = Some (get_loc 1 (index (pivot_table (ratings_data twins))))
  ∧ 1 ∈ (find_similar_users (B:=reference_backend) 1 3 twins).1.
Proof.
  assert (5 ≤ length (ratings_data twins))%nat as H5 by (simpl; lia).
  assert (1 ∈ index (pivot_table (ratings_data twins))) as Hu by evaluate.
  assert (similarity_ranking (B:=reference_backend) 1 (ratings_data twins) !! 1%nat
          = Some (get_loc 1 (index (pivot_table (ratings_data twins))))) as Hr
    by (by vm_compute).
  split_and!; [exact H5 | exact Hu | exact Hr |].
  apply (find_similar_users_returns_target (HB:=reference_backend_laws)
           1 3 twins H5 Hu ltac:(lia)).
  exists 1%nat. split; [lia | exact Hr].
Defined.

Lemma find_similar_users_sole_user_witness :
  (∀ r, r ∈ ratings_data completist → userId r = 1)
  ∧ length (ratings_data completist) = 5%nat
  ∧ (find_similar_users (B:=reference_backend) 1 3 completist).1 = [].
Proof.
  assert (∀ r, r ∈ ratings_data completist → userId r = 1) as Hall.
  { apply (Forall_forall (λ r, userId r = 1) (ratings_data completist)). evaluate. }
  split_and!; [exact Hall | reflexivity |].
  exact (find_similar_users_sole_user (HB:=reference_backend_laws)
           1 3 completist Hall).
Defined.

Lemma find_similar_users_nonpositive_top_n_witness :
  (5 ≤ length (ratings_data crowd))%nat
  ∧ 1 ∈ index (pivot_table (ratings_data crowd))
  ∧ (find_similar_users (B:=reference_backend) 1 (-1) crowd).1 = []
  ∧ length (find_similar_users (B:=reference_backend) 1 (-2) crowd).1 = 2%nat.
Proof.
  assert (5 ≤ length (ratings_data crowd))%nat as H5 by (simpl; lia).
  assert (1 ∈ index (pivot_table (ratings_data crowd))) as Hu by evaluate.
  split_and!; [exact H5 | exact Hu | |].
  - apply (find_similar_users_nonpositive_top_n (HB:=reference_backend_laws)
             1 (-1) crowd H5 Hu). by right.
  - rewrite (proj2 (find_similar_users_nonpositive_top_n
                      (HB:=reference_backend_laws) 1 (-2) crowd H5 Hu))
      by lia.
    by vm_compute.
Defined.

Lemma recommend_movies_at_most_n_witness :
  NoDup (movieId <$> movies_data crowd)
  ∧ (length (recommend_movies (B:=reference_backend) 1 3 crowd).1 ≤ 3)%nat.
Proof.
  assert (NoDup (movieId <$> movies_data crowd)) as Hcat by evaluate.
  split; [exact Hcat |].
  exact (proj2 (recommend_movies_at_most_n (HB:=reference_backend_laws)
                  1 3 crowd Hcat ltac:(lia))).
Defined.

Lemma recommend_movies_all_rated_witness :
  (∀ m, m ∈ movies_data completist →
        ∃ r, r ∈ ratings_data completist ∧ userId r = 1 ∧ rated r = movieId m)
  ∧ (recommend_movies (B:=reference_backend) 1 3 completist).1 = [].
Proof.
  assert (∀ m, m ∈ movies_data completist →
            ∃ r, r ∈ ratings_data completist ∧ userId r = 1 ∧ rated r = movieId m)
    as Hall.
  { intros m Hm.
    assert (movieId m ∈ rated <$> ratings_data completist) as Hin.
    { revert m Hm.
      apply (Forall_forall (λ m, movieId m ∈ rated <$> ratings_data completist)
               (movies_data completist)). evaluate. }
    apply list_elem_of_fmap in Hin as (r & Hrm & Hr). exists r.
    split_and!; [done | | done].
    clear Hrm. revert r Hr.
    apply (Forall_forall (λ r, userId r = 1) (ratings_data completist)).
    evaluate. }
  split; [exact Hall |].
  exact (recommend_movies_all_rated (HB:=reference_backend_laws) 1 3 completist Hall).
Defined.

Lemma recommend_movies_backed_by_rating_witness :
  similar_candidates (B:=reference_backend) 1 crowd ≠ []
  ∧ mkMovie 3 "Interstellar" "Sci-Fi|Drama"
      ∈ (recommend_movies (B:=reference_backend) 1 3 crowd).1
  ∧ ∃ s r, s ∈ (find_similar_users (B:=reference_backend) 1 3
                  (prepare_rating_matrix (B:=reference_backend) crowd)).1
      ∧ r ∈ ratings_data crowd
      ∧ userId r = s ∧ rated r = 3 ∧ (4 <= rating r)%Q.
Proof.
  assert (similar_candidates (B:=reference_backend) 1 crowd ≠ []) as Hne
    by (by vm_compute).
  assert (mkMovie 3 "Interstellar" "Sci-Fi|Drama"
            ∈ (recommend_movies (B:=reference_backend) 1 3 crowd).1) as Hm
    by evaluate.
  split_and!; [exact Hne | exact Hm |].
  exact (recommend_movies_backed_by_rating (HB:=reference_backend_laws)
           1 3 crowd _ Hne Hm).
Defined.

Lemma recommend_movies_from_store_witness :
  movies_data crowd = movies_data (prepare_rating_matrix (B:=reference_backend) crowd)
  ∧ recommend_movies (B:=reference_backend) 1 3 crowd
    = recommend_movies (B:=reference_backend) 1 3
        (prepare_rating_matrix (B:=reference_backend) crowd).
Proof.
  split; [reflexivity |].
  exact (proj1 (recommend_movies_from_store (B:=reference_backend) 1 3 3 crowd
                  (prepare_rating_matrix (B:=reference_backend) crowd)
                  eq_refl eq_refl)).
Defined.

Lemma main_body_appends_witness :
  ∃ self' rest again,
    main_body (B:=reference_backend) init (one_pass 1 5 4 0 3 2 "yes")
    = Some (self', rest, again)
    ∧ movies_data self' = movies_data init
    ∧ ∃ added, ratings_data self' = ratings_data init ++ added
        ∧ Forall (λ row, userId row = 1) added.
Proof.
  destruct (main_body (B:=reference_backend) init (one_pass 1 5 4 0 3 2 "yes"))
    as [[[self' rest] again] |] eqn:E; [| by vm_compute in E].
  exists self', rest, again. split; [reflexivity |].
  destruct (main_body_appends (B:=reference_backend) _ _ _ _ _ E)
    as (Hm & added & Hr & Hids).
  split; [exact Hm |]. exists added. split; [exact Hr |].
  eapply Forall_impl; [exact Hids |]. simpl. by intros row [= ->].
Defined.

Lemma main_loop_append_only_witness :
  ∃ self',
    main (B:=reference_backend) crowd_session = Some self'
    ∧ movies_data self' = sample_movies
    ∧ ratings_data init `prefix_of` ratings_data self'.
Proof.
  unfold main.
  destruct (main_loop (B:=reference_backend) (S (length crowd_session)) init
              crowd_session) as [self' |] eqn:E; [| by vm_compute in E].
  exists self'. split; [reflexivity |].
  exact (main_loop_append_only (B:=reference_backend) _ _ _ _ E).
Defined.

Lemma main_body_conversion_error_witness :
  length [5; 4; 0; 3; 2] = length (movies_data init)
  ∧ main_body (B:=reference_backend) init
      (Num 1 :: (Num <$> [5; 4; 0; 3; 2]) ++ Word "yes" :: Word "three" :: [Word "no"])
    = Some (prepare_rating_matrix (B:=reference_backend)
              (with_rows init (answered_rows 1 (movies_data init) [5; 4; 0; 3; 2])),
            [Word "no"], true).
Proof.
  split; [reflexivity |].
  refine (proj1 (proj2 (main_body_conversion_error (B:=reference_backend)
                          init 1 0 [5; 4; 0; 3; 2] (Word "three") [Word "no"]
                          eq_refl _)) eq_refl).
  repeat constructor; lia.
Defined.

Lemma main_body_adhoc_rating_witness :
  parse_float (Dec (-7 # 2)) = Some (-7 # 2)%Q
  ∧ ∃ self',
      main_body (B:=reference_backend) init
        (Num 1 :: (Num <$> [5; 4; 0; 3; 2])
           ++ Word "yes" :: Num 99 :: Dec (-7 # 2) :: Word "no" :: [])
      = Some (self', [], is_yes (Word "no"))
      ∧ ratings_data self'
        = ratings_data init ++ answered_rows 1 (movies_data init) [5; 4; 0; 3; 2]
            ++ [mkRating 1 99 (-7 # 2)].
Proof.
  split; [reflexivity |].
  refine (main_body_adhoc_rating (B:=reference_backend) init 1 99 [5; 4; 0; 3; 2]
            (Dec (-7 # 2)) (Word "no") (-7 # 2) [] eq_refl _ eq_refl).
  repeat constructor; lia.
Defined.

Lemma pivot_table_single_rating_witness :
  cell_values crowd_rows 2 2 = [5%Q]
  ∧ ∃ v, matrix_at (pivot_table crowd_rows) 2 2 = Some v ∧ (v == 5)%Q.
Proof.
  split; [reflexivity |].
  exact (pivot_table_single_rating crowd_rows 2 2 5 eq_refl).
Defined.

Lemma find_similar_users_count_witness :
  (5 ≤ length (ratings_data crowd))%nat
  ∧ 1 ∈ index (pivot_table (ratings_data crowd))
  ∧ length (find_similar_users (B:=reference_backend) 1 2 crowd).1 = 2%nat
  ∧ length (find_similar_users (B:=reference_backend) 1 7 crowd).1 = 3%nat.
Proof.
  assert (5 ≤ length (ratings_data crowd))%nat as H5 by (simpl; lia).
  assert (1 ∈ index (pivot_table (ratings_data crowd))) as Hu by evaluate.
  split_and!; [exact H5 | exact Hu | |].
  - rewrite (find_similar_users_count (HB:=reference_backend_laws)
               1 2 crowd H5 Hu ltac:(lia)).
    by vm_compute.
  - rewrite (find_similar_users_count (HB:=reference_backend_laws)
               1 7 crowd H5 Hu ltac:(lia)).
    by vm_compute.
Defined.

Lemma recommend_movies_all_candidates_witness :
  (∃ r, r ∈ ratings_data newcomer ∧ userId r = 1)
  ∧ mkMovie 2 "The Matrix" "Sci-Fi|Action"
      ∈ (recommend_movies (B:=reference_backend) 1 4 newcomer).1.
Proof.
  assert (∃ r, r ∈ ratings_data newcomer ∧ userId r = 1) as Hrow
    by (exists (mkRating 1 1 5); split; [left | done]).
  split; [exact Hrow |].
  apply (recommend_movies_all_candidates (HB:=reference_backend_laws)
           1 4 newcomer _ Hrow).
  - by vm_compute.
  - evaluate.
  - evaluate.
Defined.
